(** * The pcloud backend of restic: configuration, layout and backend operations

    A shallow embedding of
      - internal/backend/pcloud/config.go   (the two [ParseConfig] variants),
      - internal/backend/layout_pcloud.go   ([PcloudLayout]),
      - internal/backend/pcloud/pcloud.go   (the backend operations),
    and the properties of these functions.

    The backend talks to its environment (the file system behind
    internal/fs and package os, the context, the visitor handed to [List])
    through calls whose answers the program cannot predict.  The operations
    are therefore written as programs over a signature of calls ([osE]),
    and run against a handler that answers the calls.  Properties of the
    control flow are proved for every handler; properties that speak of
    stored bytes are proved for an in-memory file system. *)

From Stdlib Require Import ZArith Lia Ascii String.
From stdpp Require Import base gmap strings list fin_maps sorting.

Set Implicit Arguments.
Set Warnings "-register-all".
Open Scope Z_scope.

(* ===================================================================== *)
(** * Go strings *)
(* ===================================================================== *)

(** A Go string is a sequence of bytes; [string] is a list of [ascii]. *)

(** [strings.HasPrefix(s, prefix)]. *)
Fixpoint HasPrefix (s pre : string) {struct pre} : bool :=
  match pre with
  | EmptyString => true
  | String a pre' =>
      match s with
      | EmptyString => false
      | String b s' => if Ascii.eqb a b then HasPrefix s' pre' else false
      end
  end.

(** [s[n:]]; the uses below are guarded by [HasPrefix], so [n] is in range. *)
Fixpoint slice_from (s : string) (n : nat) {struct n} : string :=
  match n with
  | O => s
  | S n' => match s with EmptyString => EmptyString | String _ s' => slice_from s' n' end
  end.

(** [s[:n]]. *)
Fixpoint slice_to (s : string) (n : nat) {struct n} : string :=
  match n with
  | O => EmptyString
  | S n' => match s with EmptyString => EmptyString | String a s' => String a (slice_to s' n') end
  end.

(** Position of the first occurrence of [sep] in [s]. *)
Fixpoint index_of (s sep : string) : option nat :=
  if HasPrefix s sep then Some O
  else match s with
       | EmptyString => None
       | String _ s' => S <$> index_of s' sep
       end.

(** [strings.Index(s, sep)]: the position, or -1. *)
Definition Index (s sep : string) : Z :=
  match index_of s sep with Some m => Z.of_nat m | None => -1 end.

(** The loop of [strings.genSplit]: at most [n] cuts, then the remainder. *)
Fixpoint split_loop (n : nat) (s sep : string) : list string :=
  match n with
  | O => [s]
  | S n' =>
      let m := Index s sep in
      if m <? 0 then [s]
      else slice_to s (Z.to_nat m)
             :: split_loop n' (slice_from s (Z.to_nat m + String.length sep)) sep
  end.

(** [strings.SplitN(s, sep, n)] for a non-empty separator and [n > 0] (the
    call of [ParseConfig] has [sep = ":"] and [n = 3]); [n] is first capped
    by [len(s)+1] as in [genSplit]. *)
Definition SplitN (s sep : string) (n : nat) : list string :=
  match n with
  | O => []
  | S _ => split_loop (Nat.min n (S (String.length s)) - 1) s sep
  end.

(* ===================================================================== *)
(** * Errors *)
(* ===================================================================== *)

Inductive Errno := ENOENT | EEXIST | ENOTDIR | EISDIR | ENOTEMPTY | EACCES | EINVAL | EBADF | EIO.

(** The two errors a [context.Context] reports. *)
Inductive ctx_error := Canceled | DeadlineExceeded.

(** Go [error] values that occur in this package.  A Go error that may be
    [nil] is an [option error]. *)
Inductive error :=
| errors_New (msg : string)                      (* errors.New(msg) *)
| errors_Wrap (err : error) (msg : string)       (* errors.Wrap(err, msg), err != nil *)
| PathError (op path : string) (errno : Errno)   (* *os.PathError *)
| ContextErr (ce : ctx_error)                    (* context.Canceled, context.DeadlineExceeded *)
| SkipDir.                                       (* filepath.SkipDir *)

(** Go's pair [(value, error)] with exactly one of them set. *)
Inductive result (A : Type) :=
| Ok (a : A)
| Err (err : error).
Arguments Ok {A} a.
Arguments Err {A} err.

(** The value of a [(value, err)] pair whose [err] is nil. *)
Definition err_free {A} (r : result A) : option A :=
  match r with Ok a => Some a | Err _ => None end.

(** The [err] of a [(value, err)] pair. *)
Definition err_of {A} (r : result A) : option error :=
  match r with Ok _ => None | Err e => Some e end.

(** [errors.Cause(err)]: the innermost wrapped error. *)
Fixpoint Cause (err : error) : error :=
  match err with
  | errors_Wrap e _ => Cause e
  | _ => err
  end.

Definition errors_Cause (err : option error) : option error := Cause <$> err.

(** [os.IsNotExist(err)]. *)
Definition os_IsNotExist (err : option error) : bool :=
  match err with
  | Some (PathError _ _ ENOENT) => true
  | _ => false
  end.

Definition is_SkipDir (err : error) : bool :=
  match err with SkipDir => true | _ => false end.

(* ===================================================================== *)
(** * config.go *)
(* ===================================================================== *)

(** The file holds two versions of [Config] and [ParseConfig]. *)

Module Variant1.

(** [Config] holds all information needed to open a pcloud repository. *)
Record Config := {
  URL : string;              (* *url.URL, kept as the text it was parsed from *)
  Path : string;
  Layout : string;
  UserName : string;
  Password : string;
  AuthToken : string;
  Connections : Z;
}.

(** [NewConfig] returns a new Config with the default values filled in. *)
Definition NewConfig : Config :=
  {| URL := "https://api.pcloud.com"; Path := ""; Layout := "";
     UserName := ""; Password := ""; AuthToken := ""; Connections := 20 |}.

(** [ParseConfig] parses a pcloud backend config.  (The messages are
    kept without the quotation marks of the source.) *)
Definition ParseConfig (s : string) : result Config :=
  if negb (HasPrefix s "pcloud:") then
    Err (errors_New "invalid format, prefix pcloud not found")
  else
    (* strip prefix "pcloud:" *)
    let s := slice_from s 7 in
    match SplitN s ":" 3 with
    | d0 :: d1 :: d2 :: _ =>
        let cfg := NewConfig in
        Ok {| URL := URL cfg; Path := d2; Layout := Layout cfg;
              UserName := d0; Password := d1; AuthToken := AuthToken cfg;
              Connections := Connections cfg |}
    | _ => (* len(data) < 3 *)
        Err (errors_New "pcloud: invalid format: needs Username:Password:Path")
    end.

End Variant1.

Module Variant2.

Record Config := {
  Path : string;
  Layout : string;
}.

(** [ParseConfig] parses a pcloud backend config. *)
Definition ParseConfig (cfg : string) : result Config :=
  if negb (HasPrefix cfg "pcloud:") then
    Err (errors_New "invalid format, prefix pcloud not found")
  else
    Ok {| Path := slice_from cfg 6; Layout := "" |}.

End Variant2.

(* ===================================================================== *)
(** * Package restic: handles and file infos *)
(* ===================================================================== *)

(** Modelled from the spec: the file types of a handle, "FileType ∈ {Config,
    Data/Pack, Index, Snapshot, Key, Lock}" (internal/restic/file.go is not
    part of the sources).  The Go type is a string type, so a value outside
    the six names can be built; [OtherFile] stands for those. *)
Inductive FileType :=
| DataFile | KeyFile | LockFile | SnapshotFile | IndexFile | ConfigFile
| OtherFile (s : string).

#[global] Instance FileType_eq_dec : EqDecision FileType.
Proof. solve_decision. Defined.

(** [restic.Handle]. *)
Record Handle := {
  Handle_Type : FileType;
  Handle_Name : string;
}.

(** [restic.FileInfo]: what [Stat] and [List] report. *)
Record FileInfo := {
  Size : Z;
  FileInfo_Name : string;
}.

(** [restic.FileInfo{}]. *)
Definition FileInfo_zero : FileInfo := {| Size := 0; FileInfo_Name := "" |}.

(** Modelled from the spec: [Handle.Valid], "handles must be validated
    (non-empty name except for Config) before use", over the file types the
    spec lists; the method itself is in internal/restic, outside the
    sources. *)
Definition Valid (h : Handle) : option error :=
  match Handle_Type h with
  | OtherFile _ => Some (errors_New "invalid Type")
  | ConfigFile => None
  | _ => if decide (Handle_Name h = "") then Some (errors_New "invalid Name") else None
  end.

(* ===================================================================== *)
(** * layout_pcloud.go *)
(* ===================================================================== *)

Module layout_pcloud.
Section Paths.

(** [defaultLayoutPaths] (layout_default.go, outside the sources): the
    table from file types to directory names, taken as a parameter.  A Go
    map read at a missing key gives the empty string. *)
Variable defaultLayoutPaths : list (FileType * string).

Definition pcloudLayoutPaths := defaultLayoutPaths.

Definition paths_lookup (t : FileType) : string :=
  match list_find (fun kv => kv.1 = t) pcloudLayoutPaths with
  | Some (_, kv) => kv.2
  | None => ""
  end.

(** [PcloudLayout] implements the default layout for the REST protocol. *)
Record PcloudLayout := {
  URL : string;
  Path : string;
  Join : list string -> string;
}.

Definition String (l : PcloudLayout) : string := "<PcloudLayout>".

(** [Name] returns the name for this layout. *)
Definition Name (l : PcloudLayout) : string := "rest".

(** [Dirname] returns the directory path for a given file type and name. *)
Definition Dirname (l : PcloudLayout) (h : Handle) : string :=
  if decide (Handle_Type h = ConfigFile) then
    URL l +:+ Join l [Path l; "/"]
  else
    URL l +:+ Join l [Path l; "/"; paths_lookup (Handle_Type h)] +:+ "/".

(** [Filename] returns a path to a file, including its name. *)
Definition Filename (l : PcloudLayout) (h : Handle) : string :=
  let name := Handle_Name h in
  let name := if decide (Handle_Type h = ConfigFile) then "config" else name in
  URL l +:+ Join l [Path l; "/"; paths_lookup (Handle_Type h); name].

(** [Paths] returns all directory names. *)
Definition Paths (l : PcloudLayout) : list string :=
  (fun kv => URL l +:+ Join l [Path l; kv.2]) <$> pcloudLayoutPaths.

(** [Basedir] returns the base dir name for files of type t. *)
Definition Basedir (l : PcloudLayout) (t : FileType) : string * bool :=
  (URL l +:+ Join l [Path l; paths_lookup t], false).

End Paths.
End layout_pcloud.

(** The interface [backend.Layout], as the value the backend embeds: the
    methods of whatever layout [ParseLayout] chose. *)
Record Layout := {
  Layout_Name : string;
  Dirname : Handle -> string;
  Filename : Handle -> string;
  Paths : list string;
  Basedir : FileType -> string * bool;
}.

(** A [*PcloudLayout] as a [backend.Layout]. *)
Definition PcloudLayout_as_Layout (paths : list (FileType * string))
    (l : layout_pcloud.PcloudLayout) : Layout :=
  {| Layout_Name := layout_pcloud.Name l;
     Dirname := layout_pcloud.Dirname paths l;
     Filename := layout_pcloud.Filename paths l;
     Paths := layout_pcloud.Paths paths l;
     Basedir := layout_pcloud.Basedir paths l |}.

(* ===================================================================== *)
(** * Package os: modes and file infos *)
(* ===================================================================== *)

(** [os.FileMode], a [uint32]. *)
Definition FileMode := Z.

Definition ModeDir : FileMode := Z.shiftl 1 31.
Definition ModeSymlink : FileMode := Z.shiftl 1 27.
Definition ModeDevice : FileMode := Z.shiftl 1 26.
Definition ModeNamedPipe : FileMode := Z.shiftl 1 25.
Definition ModeSocket : FileMode := Z.shiftl 1 24.
Definition ModeCharDevice : FileMode := Z.shiftl 1 21.
Definition ModeIrregular : FileMode := Z.shiftl 1 19.

(** [os.ModeType], the mask for the type bits. *)
Definition ModeType : FileMode :=
  Z.lor ModeDir (Z.lor ModeSymlink (Z.lor ModeNamedPipe (Z.lor ModeSocket
    (Z.lor ModeDevice (Z.lor ModeCharDevice ModeIrregular))))).

(** Flags of [os.OpenFile]. *)
Definition O_WRONLY : Z := 1.
Definition O_CREATE : Z := 64.
Definition O_EXCL : Z := 128.

(** What the methods of an [os.FileInfo] return. *)
Record os_FileInfo := {
  fi_Size : Z;
  fi_Mode : FileMode;
}.

Definition fi_IsDir (fi : os_FileInfo) : bool :=
  negb (Z.land (fi_Mode fi) ModeDir =? 0).

(** An open [*os.File] and a [context.Context] are named by numbers; what
    they stand for is kept by the environment. *)
Definition File := nat.
Definition Context := nat.

(** The [io.Reader] handed to [Save]: the bytes it yields, and the error it
    ends with, if any. *)
Record Reader := {
  rd_bytes : list Byte.byte;
  rd_err : option error;
}.

(** The [io.ReadCloser] that [Load] returns: the open file, or
    [backend.LimitReadCloser(f, n)]. *)
Inductive ReadCloser :=
| rc_File (f : File)
| LimitReadCloser (f : File) (n : Z).

(** [http.RoundTripper]; [Open] and [Create] do not use theirs. *)
Definition RoundTripper := unit.

(** What [filepath.Walk] finds below a root: the answer of [lstat] for an
    entry and, for an entry it reads as a directory, the answer of
    [readDirNames] and the entries below, each with its path. *)
Inductive wtree :=
| WLstatErr (err : error)
| WNode (info : os_FileInfo) (rderr : option error) (children : list (string * wtree)).

(* ===================================================================== *)
(** * Calls to the environment, and programs over them *)
(* ===================================================================== *)

(** The calls the backend makes; the index is the type of the answer. *)
Inductive osE : Type -> Type :=
(* internal/fs, which forwards to package os *)
| fs_OpenFile (name : string) (flag : Z) (perm : FileMode) : osE (result File)
| fs_Open (name : string) : osE (result File)
| fs_Stat (name : string) : osE (result os_FileInfo)
| fs_Lstat (name : string) : osE (result os_FileInfo)
| fs_MkdirAll (path : string) (perm : FileMode) : osE (option error)
| os_MkdirAll (path : string) (perm : FileMode) : osE (option error)
| fs_Chmod (name : string) (mode : FileMode) : osE (option error)
| fs_Remove (name : string) : osE (option error)
| walk_read (root : string) : osE wtree
(* methods of *os.File, and io.Copy into one *)
| io_Copy (dst : File) (src : Reader) : osE (option error)
| File_Sync (f : File) : osE (option error)
| File_Close (f : File) : osE (option error)
| File_Seek (f : File) (offset : Z) (whence : Z) : osE (result Z)
(* functions of the repository that are outside the sources *)
| setNewFileMode (f : string) (mode : FileMode) : osE (option error)
| backend_ParseLayout (layout defaultLayout path : string) : osE (result Layout)
(* ctx.Err() *)
| ctx_Err (ctx : Context) : osE (option ctx_error)
(* a call of a visitor that lives in the environment *)
| visit (fi : FileInfo) : osE (option error).

(** A program: it returns, or makes a call and goes on with the answer. *)
Inductive prog (R : Type) : Type :=
| Ret (r : R)
| Vis {X : Type} (e : osE X) (k : X -> prog R).
Arguments Ret {R} r.
Arguments Vis {R X} e k.

Fixpoint bind {A B : Type} (p : prog A) (k : A -> prog B) : prog B :=
  match p with
  | Ret a => k a
  | Vis e c => Vis e (fun x => bind (c x) k)
  end.

Definition call {X : Type} (e : osE X) : prog X := Vis e Ret.

Notation "x <- p ;; k" := (bind p (fun x => k))
  (at level 100, p at next level, right associativity).

(** A call that was made, with its answer. *)
Inductive called : Type :=
| Called {X : Type} (e : osE X) (x : X).

Section Run.

(** The environment: a state, and the answer and next state for each
    call. *)
Variable world : Type.
Variable handle : forall X : Type, osE X -> world -> X * world.

(** Running a program: its result, the final state of the environment and
    the calls made, in order. *)
Fixpoint run {R : Type} (p : prog R) (w : world) : R * world * list called :=
  match p with
  | Ret r => (r, w, [])
  | Vis e k =>
      let '(x, w1) := handle e w in
      let '(r, w2, tr) := run (k x) w1 in
      (r, w2, Called e x :: tr)
  end.

End Run.

(** What a trace shows of the visitor and of the context. *)
Inductive obs :=
| obs_visit (fi : FileInfo) (ans : option error)
| obs_ctx (ctx : Context) (ans : option ctx_error)
| obs_mkdir (path : string)
| obs_other.

Definition observe (c : called) : obs :=
  match c with
  | Called e x =>
      match e in osE X return X -> obs with
      | visit fi => fun ans => obs_visit fi ans
      | ctx_Err ctx => fun ans => obs_ctx ctx ans
      | fs_MkdirAll path _ => fun _ => obs_mkdir path
      | os_MkdirAll path _ => fun _ => obs_mkdir path
      | _ => fun _ => obs_other
      end x
  end.

(** The visits of a trace, with the visitor's answers. *)
Definition visits (tr : list called) : list (FileInfo * option error) :=
  omap (fun c => match observe c with obs_visit fi ans => Some (fi, ans) | _ => None end) tr.

(** The answers of the context in a trace. *)
Definition ctx_checks (tr : list called) : list (option ctx_error) :=
  omap (fun c => match observe c with obs_ctx _ ans => Some ans | _ => None end) tr.

(** The directories a trace asked to create. *)
Definition mkdirs_of (tr : list called) : list string :=
  omap (fun c => match observe c with obs_mkdir p => Some p | _ => None end) tr.

(* ===================================================================== *)
(** * filepath.Walk *)
(* ===================================================================== *)

(** What [Walk] hands to its function besides the path: an info and no
    error, or an error (with the info, when [lstat] gave one). *)
Inductive walk_arg :=
| walk_ok (info : os_FileInfo)
| walk_err (info : option os_FileInfo) (err : error).

Definition WalkFunc := string -> walk_arg -> prog (option error).

Definition walk_arg_of (info : os_FileInfo) (err : option error) : walk_arg :=
  match err with
  | None => walk_ok info
  | Some e => walk_err (Some info) e
  end.

(** [filepath.walk]: the function is called on the entry; a directory that
    was read is then walked entry by entry, in the order of its names.
    [SkipDir] from a directory skips it, [SkipDir] from a file skips the
    rest of its directory; any other error ends the walk. *)
Fixpoint walk (path : string) (t : wtree) (walkFn : WalkFunc) {struct t}
    : prog (option error) :=
  match t with
  | WLstatErr err => walkFn path (walk_err None err)
  | WNode info rderr children =>
      if negb (fi_IsDir info) then walkFn path (walk_ok info)
      else
        err1 <- walkFn path (walk_arg_of info rderr) ;;
        if bool_decide (rderr <> None \/ err1 <> None) then Ret err1
        else
          (fix loop (cs : list (string * wtree)) : prog (option error) :=
             match cs with
             | [] => Ret None
             | (filename, WLstatErr err) :: cs' =>
                 r <- walkFn filename (walk_err None err) ;;
                 match r with
                 | Some e => if is_SkipDir e then loop cs' else Ret (Some e)
                 | None => loop cs'
                 end
             | (filename, (WNode fileInfo _ _) as c) :: cs' =>
                 r <- walk filename c walkFn ;;
                 match r with
                 | Some e =>
                     if negb (fi_IsDir fileInfo) || negb (is_SkipDir e)
                     then Ret (Some e) else loop cs'
                 | None => loop cs'
                 end
             end) children
  end.

(** [fs.Walk(root, walkFn)], which is [filepath.Walk]: the tree below
    [root] is the one the environment shows when the walk starts. *)
Definition fs_Walk (root : string) (walkFn : WalkFunc) : prog (option error) :=
  t <- call (walk_read root) ;;
  err <- walk root t walkFn ;;
  match err with
  | Some SkipDir => Ret None
  | _ => Ret err
  end.

(* ===================================================================== *)
(** * pcloud.go *)
(* ===================================================================== *)

(** Names the backend uses from outside the sources: the permissions
    [backend.Modes] and two functions of path/filepath. *)
Class Externals := {
  Modes_Dir : FileMode;
  Modes_File : FileMode;
  filepath_Dir : string -> string;
  filepath_Base : string -> string;
}.

Module Pcloud.
Section Backend.

Context `{Externals}.

(** [Pcloud] is a backend in a pcloud directory. *)
Record Pcloud := {
  Config : Variant1.Config;
  Layout_ : Layout;
}.

Definition defaultLayout : string := "default".

(** [Open] opens the pcloud backend as specified by config. *)
Definition Open (cfg : Variant1.Config) (rt : RoundTripper) : prog (result Pcloud) :=
  r <- call (backend_ParseLayout (Variant1.Layout cfg) defaultLayout (Variant1.Path cfg)) ;;
  match r with
  | Err err => Ret (Err err)
  | Ok l => Ret (Ok {| Config := cfg; Layout_ := l |})
  end.

(** [Create] creates all the necessary files and directories for a new
    pcloud backend at dir. *)
Definition Create (cfg : Variant1.Config) (rt : RoundTripper) : prog (result Pcloud) :=
  r <- call (backend_ParseLayout (Variant1.Layout cfg) defaultLayout (Variant1.Path cfg)) ;;
  match r with
  | Err err => Ret (Err err)
  | Ok l =>
      let be := {| Config := cfg; Layout_ := l |} in
      (* test if config file already exists *)
      st <- call (fs_Lstat (Filename (Layout_ be)
                              {| Handle_Type := ConfigFile; Handle_Name := "" |})) ;;
      match st with
      | Ok _ => Ret (Err (errors_New "config file already exists"))
      | Err _ =>
          (* create paths for data and refs *)
          (fix loop (ds : list string) : prog (result Pcloud) :=
             match ds with
             | [] => Ret (Ok be)
             | d :: ds' =>
                 err <- call (fs_MkdirAll d Modes_Dir) ;;
                 match err with
                 | Some e => Ret (Err (errors_Wrap e "MkdirAll"))
                 | None => loop ds'
                 end
             end) (Paths (Layout_ be))
      end
  end.

(** [Location] returns this backend's location (the directory name). *)
Definition Location (b : Pcloud) : string := Variant1.Path (Config b).

(** [IsNotExist] returns true if the error is caused by a non existing
    file. *)
Definition IsNotExist (b : Pcloud) (err : option error) : bool :=
  os_IsNotExist (errors_Cause err).

(** [Save] stores data in the backend at the handle. *)
Definition Save (b : Pcloud) (ctx : Context) (h : Handle) (rd : Reader)
    : prog (option error) :=
  match Valid h with
  | Some err => Ret (Some err)
  | None =>
      let filename := Filename (Layout_ b) h in
      (* create new file *)
      r <- call (fs_OpenFile filename (Z.lor O_CREATE (Z.lor O_EXCL O_WRONLY)) Modes_File) ;;
      r <- (if IsNotExist b (err_of r) then
              (* error is caused by a missing directory, try to create it *)
              mkdirErr <- call (os_MkdirAll (filepath_Dir filename) Modes_Dir) ;;
              match mkdirErr with
              | Some _ => Ret r
              | None =>
                  (* try again *)
                  call (fs_OpenFile filename (Z.lor O_CREATE (Z.lor O_EXCL O_WRONLY))
                          Modes_File)
              end
            else Ret r) ;;
      match r with
      | Err err => Ret (Some (errors_Wrap err "OpenFile"))
      | Ok f =>
          (* save data, then sync *)
          err <- call (io_Copy f rd) ;;
          match err with
          | Some e => _ <- call (File_Close f) ;; Ret (Some (errors_Wrap e "Write"))
          | None =>
              err <- call (File_Sync f) ;;
              match err with
              | Some e => _ <- call (File_Close f) ;; Ret (Some (errors_Wrap e "Sync"))
              | None =>
                  err <- call (File_Close f) ;;
                  match err with
                  | Some e => Ret (Some (errors_Wrap e "Close"))
                  | None => call (setNewFileMode filename Modes_File)
                  end
              end
          end
      end
  end.

(** [Load] returns a reader that yields the contents of the file at h at
    the given offset.  If length is nonzero, only a portion of the file
    is returned. *)
Definition Load (b : Pcloud) (ctx : Context) (h : Handle) (length : Z) (offset : Z)
    : prog (result ReadCloser) :=
  match Valid h with
  | Some err => Ret (Err err)
  | None =>
      if offset <? 0 then Ret (Err (errors_New "offset is negative"))
      else
        r <- call (fs_Open (Filename (Layout_ b) h)) ;;
        match r with
        | Err err => Ret (Err err)
        | Ok f =>
            sk <- (if 0 <? offset then
                     s <- call (File_Seek f offset 0) ;;
                     match s with
                     | Err err => _ <- call (File_Close f) ;; Ret (Some err)
                     | Ok _ => Ret None
                     end
                   else Ret None) ;;
            match sk with
            | Some err => Ret (Err err)
            | None =>
                if 0 <? length then Ret (Ok (LimitReadCloser f length))
                else Ret (Ok (rc_File f))
            end
        end
  end.

(** [Stat] returns information about a blob. *)
Definition Stat (b : Pcloud) (ctx : Context) (h : Handle) : prog (FileInfo * option error) :=
  match Valid h with
  | Some err => Ret (FileInfo_zero, Some err)
  | None =>
      r <- call (fs_Stat (Filename (Layout_ b) h)) ;;
      match r with
      | Err err => Ret (FileInfo_zero, Some (errors_Wrap err "Stat"))
      | Ok fi => Ret ({| Size := fi_Size fi; FileInfo_Name := Handle_Name h |}, None)
      end
  end.

(** [Test] returns true if a blob of the given type and name exists in
    the backend. *)
Definition Test (b : Pcloud) (ctx : Context) (h : Handle) : prog (bool * option error) :=
  r <- call (fs_Stat (Filename (Layout_ b) h)) ;;
  match r with
  | Err err =>
      if os_IsNotExist (errors_Cause (Some err)) then Ret (false, None)
      else Ret (false, Some (errors_Wrap err "Stat"))
  | Ok _ => Ret (true, None)
  end.

(** [Remove] removes the blob with the given name and type. *)
Definition Remove (b : Pcloud) (ctx : Context) (h : Handle) : prog (option error) :=
  let fn := Filename (Layout_ b) h in
  (* reset read-only flag *)
  err <- call (fs_Chmod fn 438) ;;
  match err with
  | Some e => Ret (Some (errors_Wrap e "Chmod"))
  | None => call (fs_Remove fn)
  end.

Definition isFile (fi : os_FileInfo) : bool :=
  Z.land (fi_Mode fi) (Z.lor ModeType ModeCharDevice) =? 0.

(** [List] runs fn for each file in the backend which has the type t.
    When an error occurs (or fn returns an error), List stops and returns
    it. *)
Definition List (b : Pcloud) (ctx : Context) (t : FileType)
    (fn : FileInfo -> prog (option error)) : prog (option error) :=
  let '(basedir, subdirs) := Basedir (Layout_ b) t in
  fs_Walk basedir (fun path a =>
    match a with
    | walk_err _ err => Ret (Some err)
    | walk_ok fi =>
        if decide (path = basedir) then Ret None
        else if negb (isFile fi) then Ret None
        else if fi_IsDir fi && negb subdirs then Ret (Some SkipDir)
        else
          let rfi := {| FileInfo_Name := filepath_Base path; Size := fi_Size fi |} in
          c <- call (ctx_Err ctx) ;;
          match c with
          | Some _ => c' <- call (ctx_Err ctx) ;; Ret (ContextErr <$> c')
          | None =>
              err <- fn rfi ;;
              match err with
              | Some e => Ret (Some e)
              | None => c' <- call (ctx_Err ctx) ;; Ret (ContextErr <$> c')
              end
          end
    end).

(** [Close] closes all open files. *)
Definition Close (b : Pcloud) : prog (option error) := Ret None.

End Backend.
End Pcloud.

(** The visitor that lives in the environment. *)
Definition visitor : FileInfo -> prog (option error) := fun fi => call (visit fi).

(* ===================================================================== *)
(** * An in-memory file system as environment *)
(* ===================================================================== *)

(** The environment the sources leave open (package os behind internal/fs,
    the context, the visitor) is given here by a small model, so that
    statements about stored bytes can be made and evaluated: paths are keys
    of a finite map, a path can be marked faulty (every access to it fails
    with the given errno), cancelled contexts are recorded with their error,
    and the visitor follows a table from file names to actions. *)

Inductive node :=
| RegularFile (perm : FileMode) (data : list Byte.byte)
| Directory (perm : FileMode).

Record open_file := {
  of_name : string;
  of_offset : Z;
}.

Inductive action :=
| act_fail (err : error)                         (* the visitor returns err *)
| act_cancel (ctx : Context) (ce : ctx_error)    (* the visitor cancels ctx, returns nil *)
| act_cancel_fail (ctx : Context) (ce : ctx_error) (err : error).
                                                 (* the visitor cancels ctx, returns err *)

Record world := {
  w_nodes : gmap string node;
  w_open : gmap nat open_file;
  w_next : nat;
  w_fault : gmap string Errno;
  w_ctx : gmap nat ctx_error;
  w_visitor : gmap string action;
}.

Definition set_nodes (w : world) (nodes : gmap string node) : world :=
  {| w_nodes := nodes; w_open := w_open w; w_next := w_next w;
     w_fault := w_fault w; w_ctx := w_ctx w; w_visitor := w_visitor w |}.

Definition set_open (w : world) (open : gmap nat open_file) (next : nat) : world :=
  {| w_nodes := w_nodes w; w_open := open; w_next := next;
     w_fault := w_fault w; w_ctx := w_ctx w; w_visitor := w_visitor w |}.

Definition set_ctx (w : world) (cs : gmap nat ctx_error) : world :=
  {| w_nodes := w_nodes w; w_open := w_open w; w_next := w_next w;
     w_fault := w_fault w; w_ctx := cs; w_visitor := w_visitor w |}.

(** Position of the last separator of a path. *)
Fixpoint last_slash (s : string) : option nat :=
  match s with
  | EmptyString => None
  | String a s' =>
      match last_slash s' with
      | Some i => Some (S i)
      | None => if Ascii.eqb a "/" then Some O else None
      end
  end.

(** The directory a path lies in. *)
Definition parent_dir (s : string) : string :=
  match last_slash s with
  | None => "."
  | Some O => "/"
  | Some i => slice_to s i
  end.

(** The last element of a path. *)
Definition base_name (s : string) : string :=
  match last_slash s with
  | None => s
  | Some i => slice_from s (S i)
  end.

(** The directories on the way to a path, outermost first, and the path. *)
Fixpoint dir_chain_from (done rest : string) : list string :=
  match rest with
  | EmptyString => [done]
  | String a rest' =>
      if Ascii.eqb a "/" then
        (if decide (done = "") then "/" else done) :: dir_chain_from (done +:+ "/") rest'
      else dir_chain_from (done +:+ String a EmptyString) rest'
  end.

Definition dir_chain (path : string) : list string := dir_chain_from "" path.

Definition has_flag (flag bit : Z) : bool := negb (Z.land flag bit =? 0).

Definition info_of (n : node) : os_FileInfo :=
  match n with
  | RegularFile perm data =>
      {| fi_Size := Z.of_nat (length data); fi_Mode := Z.land perm 511 |}
  | Directory perm =>
      {| fi_Size := 4096; fi_Mode := Z.lor ModeDir (Z.land perm 511) |}
  end.

Definition chmod_node (n : node) (mode : FileMode) : node :=
  match n with
  | RegularFile _ data => RegularFile mode data
  | Directory _ => Directory mode
  end.

(** The entries of a directory, sorted by name as [readDirNames] does. *)
Definition children_of (nodes : gmap string node) (d : string) : list (string * node) :=
  merge_sort (fun kv1 kv2 : string * node => String.le kv1.1 kv2.1)
    (filter (fun kv => parent_dir kv.1 = d /\ kv.1 <> d) (map_to_list nodes)).

Definition fault (w : world) (op name : string) : option error :=
  PathError op name <$> (w_fault w !! name).

Definition open_new (w : world) (name : string) : result File * world :=
  (Ok (w_next w),
   set_open w (<[w_next w := {| of_name := name; of_offset := 0 |}]> (w_open w))
            (S (w_next w))).

Definition do_OpenFile (name : string) (flag : Z) (perm : FileMode) (w : world)
    : result File * world :=
  match fault w "open" name with
  | Some e => (Err e, w)
  | None =>
      match w_nodes w !! name with
      | Some n =>
          if has_flag flag O_CREATE && has_flag flag O_EXCL
          then (Err (PathError "open" name EEXIST), w)
          else match n with
               | Directory _ =>
                   if has_flag flag O_WRONLY then (Err (PathError "open" name EISDIR), w)
                   else open_new w name
               | RegularFile _ _ => open_new w name
               end
      | None =>
          if has_flag flag O_CREATE then
            match w_nodes w !! parent_dir name with
            | Some (Directory _) =>
                open_new (set_nodes w (<[name := RegularFile perm []]> (w_nodes w))) name
            | Some (RegularFile _ _) => (Err (PathError "open" name ENOTDIR), w)
            | None => (Err (PathError "open" name ENOENT), w)
            end
          else (Err (PathError "open" name ENOENT), w)
      end
  end.

Definition do_Stat (op name : string) (w : world) : result os_FileInfo * world :=
  match fault w op name with
  | Some e => (Err e, w)
  | None =>
      match w_nodes w !! name with
      | Some n => (Ok (info_of n), w)
      | None => (Err (PathError op name ENOENT), w)
      end
  end.

(** [os.MkdirAll]: a directory on the way that exists is kept, a file on
    the way is an error, what is missing is created. *)
Fixpoint mkdir_chain (path : string) (chain : list string) (perm : FileMode)
    (nodes : gmap string node) : option error * gmap string node :=
  match chain with
  | [] => (None, nodes)
  | d :: chain' =>
      match nodes !! d with
      | Some (Directory _) => mkdir_chain path chain' perm nodes
      | Some (RegularFile _ _) => (Some (PathError "mkdir" path ENOTDIR), nodes)
      | None => mkdir_chain path chain' perm (<[d := Directory perm]> nodes)
      end
  end.

Definition do_MkdirAll (path : string) (perm : FileMode) (w : world) : option error * world :=
  match fault w "mkdir" path with
  | Some e => (Some e, w)
  | None =>
      let '(err, nodes) := mkdir_chain path (dir_chain path) perm (w_nodes w) in
      (err, set_nodes w nodes)
  end.

Definition do_Chmod (name : string) (mode : FileMode) (w : world) : option error * world :=
  match fault w "chmod" name with
  | Some e => (Some e, w)
  | None =>
      match w_nodes w !! name with
      | Some n => (None, set_nodes w (<[name := chmod_node n mode]> (w_nodes w)))
      | None => (Some (PathError "chmod" name ENOENT), w)
      end
  end.

Definition do_Remove (name : string) (w : world) : option error * world :=
  match fault w "remove" name with
  | Some e => (Some e, w)
  | None =>
      match w_nodes w !! name with
      | Some (RegularFile _ _) => (None, set_nodes w (delete name (w_nodes w)))
      | Some (Directory _) =>
          match children_of (w_nodes w) name with
          | [] => (None, set_nodes w (delete name (w_nodes w)))
          | _ :: _ => (Some (PathError "remove" name ENOTEMPTY), w)
          end
      | None => (Some (PathError "remove" name ENOENT), w)
      end
  end.

(** The tree a walk finds; the fuel bounds the depth and is taken as the
    number of nodes. *)
Fixpoint build_tree (fuel : nat) (w : world) (path : string) : wtree :=
  match fault w "lstat" path with
  | Some e => WLstatErr e
  | None =>
      match w_nodes w !! path with
      | None => WLstatErr (PathError "lstat" path ENOENT)
      | Some (RegularFile perm data) => WNode (info_of (RegularFile perm data)) None []
      | Some (Directory perm) =>
          match fuel with
          | O => WNode (info_of (Directory perm)) (Some (PathError "open" path EIO)) []
          | S fuel' =>
              WNode (info_of (Directory perm)) None
                    ((fun kv => (kv.1, build_tree fuel' w kv.1))
                       <$> children_of (w_nodes w) path)
          end
      end
  end.

(** Writing bytes at an offset of a file's content. *)
Definition write_at (off : nat) (bytes data : list Byte.byte) : list Byte.byte :=
  take off (data ++ replicate (off - length data) Byte.x00) ++ bytes
    ++ drop (off + length bytes) data.

Definition do_Copy (f : File) (rd : Reader) (w : world) : option error * world :=
  match w_open w !! f with
  | None => (Some (PathError "write" "" EBADF), w)
  | Some o =>
      match w_nodes w !! of_name o with
      | Some (RegularFile perm data) =>
          let off := Z.to_nat (of_offset o) in
          let w1 := set_nodes w (<[of_name o := RegularFile perm (write_at off (rd_bytes rd) data)]>
                                   (w_nodes w)) in
          (rd_err rd,
           set_open w1 (<[f := {| of_name := of_name o;
                                  of_offset := of_offset o + Z.of_nat (length (rd_bytes rd)) |}]>
                          (w_open w1)) (w_next w1))
      | _ => (Some (PathError "write" (of_name o) EBADF), w)
      end
  end.

Definition do_Sync (f : File) (w : world) : option error * world :=
  match w_open w !! f with
  | None => (Some (PathError "sync" "" EBADF), w)
  | Some _ => (None, w)
  end.

Definition do_Close (f : File) (w : world) : option error * world :=
  match w_open w !! f with
  | None => (Some (PathError "close" "" EBADF), w)
  | Some _ => (None, set_open w (delete f (w_open w)) (w_next w))
  end.

Definition do_Seek (f : File) (offset whence : Z) (w : world) : result Z * world :=
  match w_open w !! f with
  | None => (Err (PathError "seek" "" EBADF), w)
  | Some o =>
      let base :=
        if whence =? 0 then Some 0
        else if whence =? 1 then Some (of_offset o)
        else if whence =? 2 then
          match w_nodes w !! of_name o with
          | Some n => Some (fi_Size (info_of n))
          | None => None
          end
        else None in
      match base with
      | None => (Err (PathError "seek" (of_name o) EINVAL), w)
      | Some b =>
          if b + offset <? 0 then (Err (PathError "seek" (of_name o) EINVAL), w)
          else (Ok (b + offset),
                set_open w (<[f := {| of_name := of_name o; of_offset := b + offset |}]>
                              (w_open w)) (w_next w))
      end
  end.

(** An example of the table [defaultLayoutPaths]. *)
Definition example_paths : list (FileType * string) :=
  [(DataFile, "data"); (SnapshotFile, "snapshots"); (IndexFile, "index");
   (LockFile, "locks"); (KeyFile, "keys")].

(** An example of a [Join]: the elements other than "" and "/" with a
    separator between them. *)
Fixpoint example_Join (elems : list string) : string :=
  match elems with
  | [] => ""
  | e :: elems' =>
      if bool_decide (e = "" \/ e = "/") then example_Join elems'
      else match example_Join elems' with
           | EmptyString => e
           | rest => e +:+ "/" +:+ rest
           end
  end.

(** The layout that the example environment's [ParseLayout] gives for the
    layout names "default" and "". *)
Definition example_layout (path : string) : Layout :=
  PcloudLayout_as_Layout example_paths
    {| layout_pcloud.URL := ""; layout_pcloud.Path := path;
       layout_pcloud.Join := example_Join |}.

Definition do_ParseLayout (layout defaultLayout path : string) : result Layout :=
  if bool_decide (layout = "default" \/ (layout = "" /\ defaultLayout = "default"))
  then Ok (example_layout path)
  else Err (errors_New "unknown backend layout string").

(** Cancelling a context that is not yet cancelled. *)
Definition cancel (c : Context) (ce : ctx_error) (w : world) : world :=
  match w_ctx w !! c with
  | Some _ => w
  | None => set_ctx w (<[c := ce]> (w_ctx w))
  end.

Definition do_visit (fi : FileInfo) (w : world) : option error * world :=
  match w_visitor w !! FileInfo_Name fi with
  | Some (act_fail e) => (Some e, w)
  | Some (act_cancel c ce) => (None, cancel c ce w)
  | Some (act_cancel_fail c ce e) => (Some e, cancel c ce w)
  | None => (None, w)
  end.

(** The answers of the in-memory environment. *)
Definition os_handle (X : Type) (e : osE X) (w : world) : X * world :=
  match e in osE X return X * world with
  | fs_OpenFile name flag perm => do_OpenFile name flag perm w
  | fs_Open name => do_OpenFile name 0 0 w
  | fs_Stat name => do_Stat "stat" name w
  | fs_Lstat name => do_Stat "lstat" name w
  | fs_MkdirAll path perm => do_MkdirAll path perm w
  | os_MkdirAll path perm => do_MkdirAll path perm w
  | fs_Chmod name mode => do_Chmod name mode w
  | fs_Remove name => do_Remove name w
  | walk_read root => (build_tree (size (w_nodes w)) w root, w)
  | io_Copy dst src => do_Copy dst src w
  | File_Sync f => do_Sync f w
  | File_Close f => do_Close f w
  | File_Seek f offset whence => do_Seek f offset whence w
  | setNewFileMode f mode => do_Chmod f mode w
  | backend_ParseLayout layout defaultLayout path =>
      (do_ParseLayout layout defaultLayout path, w)
  | ctx_Err ctx => (w_ctx w !! ctx, w)
  | visit fi => do_visit fi w
  end.

(** Reading a [ReadCloser] to its end ([io.ReadAll]) in a state of the
    in-memory environment. *)
Definition ReadAll (w : world) (rc : ReadCloser) : result (list Byte.byte) :=
  let '(f, limit) := match rc with
                     | rc_File f => (f, None)
                     | LimitReadCloser f n => (f, Some n)
                     end in
  match w_open w !! f with
  | None => Err (PathError "read" "" EBADF)
  | Some o =>
      match w_nodes w !! of_name o with
      | Some (RegularFile _ data) =>
          let rest := drop (Z.to_nat (of_offset o)) data in
          Ok (match limit with
              | None => rest
              | Some n => take (Z.to_nat n) rest
              end)
      | Some (Directory _) => Err (PathError "read" (of_name o) EISDIR)
      | None => Err (PathError "read" (of_name o) ENOENT)
      end
  end.

(** The functions of path/filepath in the examples. *)
Definition example_externals : Externals :=
  {| Modes_Dir := 448; Modes_File := 384;
     filepath_Dir := parent_dir; filepath_Base := base_name |}.

(* ===================================================================== *)
(** * Parts of the operations and predicates on traces, for the proofs *)
(* ===================================================================== *)

(** The flags [Save] opens its file with. *)
Definition save_flags : Z := Z.lor O_CREATE (Z.lor O_EXCL O_WRONLY).


(** The first half of [Save]: the open, and the second try after
    [MkdirAll]. *)
Definition open_phase `{Externals} (b : Pcloud.Pcloud) (filename : string) : prog (result File) :=
  r <- call (fs_OpenFile filename save_flags Modes_File) ;;
  (if Pcloud.IsNotExist b (err_of r) then
     mkdirErr <- call (os_MkdirAll (filepath_Dir filename) Modes_Dir) ;;
     match mkdirErr with
     | Some _ => Ret r
     | None => call (fs_OpenFile filename save_flags Modes_File)
     end
   else Ret r).

(** The second half of [Save]: copy, sync, close, set the mode. *)
Definition write_phase `{Externals} (filename : string) (rd : Reader) (r : result File)
    : prog (option error) :=
  match r with
  | Err err => Ret (Some (errors_Wrap err "OpenFile"))
  | Ok f =>
      err <- call (io_Copy f rd) ;;
      match err with
      | Some e => _ <- call (File_Close f) ;; Ret (Some (errors_Wrap e "Write"))
      | None =>
          err <- call (File_Sync f) ;;
          match err with
          | Some e => _ <- call (File_Close f) ;; Ret (Some (errors_Wrap e "Sync"))
          | None =>
              err <- call (File_Close f) ;;
              match err with
              | Some e => Ret (Some (errors_Wrap e "Close"))
              | None => call (setNewFileMode filename Modes_File)
              end
          end
      end
  end.

(** The handle [Create] looks for. *)
Definition config_handle : Handle := {| Handle_Type := ConfigFile; Handle_Name := "" |}.

(** The loop of [walk] over the entries of a directory. *)
Definition walk_children (walkFn : WalkFunc) : list (string * wtree) -> prog (option error) :=
  fix loop (cs : list (string * wtree)) : prog (option error) :=
    match cs with
    | [] => Ret None
    | (filename, WLstatErr err) :: cs' =>
        r <- walkFn filename (walk_err None err) ;;
        match r with
        | Some e => if is_SkipDir e then loop cs' else Ret (Some e)
        | None => loop cs'
        end
    | (filename, (WNode fileInfo _ _) as c) :: cs' =>
        r <- walk filename c walkFn ;;
        match r with
        | Some e =>
            if negb (fi_IsDir fileInfo) || negb (is_SkipDir e)
            then Ret (Some e) else loop cs'
        | None => loop cs'
        end
    end.

(** An error that ends a walk: any error but [SkipDir]. *)
Definition stops (r : option error) : Prop :=
  exists e, r = Some e /\ is_SkipDir e = false.

(** The end of the function of [List]: the check of the context, the
    visit, the second check. *)
Definition check_visit (ctx : Context) (fn : FileInfo -> prog (option error))
    (rfi : FileInfo) : prog (option error) :=
  c <- call (ctx_Err ctx) ;;
  match c with
  | Some _ => c' <- call (ctx_Err ctx) ;; Ret (ContextErr <$> c')
  | None =>
      err <- fn rfi ;;
      match err with
      | Some e => Ret (Some e)
      | None => c' <- call (ctx_Err ctx) ;; Ret (ContextErr <$> c')
      end
  end.

(** The function [List] hands to [fs.Walk]. *)
Definition list_callback `{Externals} (ctx : Context) (basedir : string) (subdirs : bool)
    (fn : FileInfo -> prog (option error)) : WalkFunc :=
  fun path a =>
    match a with
    | walk_err _ err => Ret (Some err)
    | walk_ok fi =>
        if decide (path = basedir) then Ret None
        else if negb (Pcloud.isFile fi) then Ret None
        else if fi_IsDir fi && negb subdirs then Ret (Some SkipDir)
        else check_visit ctx fn {| FileInfo_Name := filepath_Base path; Size := fi_Size fi |}
    end.

(** What a trace may show before a walk goes on: no cancelled check, and
    no visit that failed with anything but [SkipDir]. *)
Definition quiet_obs (o : obs) : Prop :=
  match o with
  | obs_ctx _ (Some _) => False
  | obs_visit _ (Some e) => is_SkipDir e = true
  | _ => True
  end.

(** The traces of [List]: a visit that fails (not with [SkipDir]) is the
    last thing that happens, and its error is the result; after a check
    that finds the context cancelled comes at most the second reading of
    the error, and the cancellation is the result. *)
Fixpoint ok_trace (os : list obs) (r : option error) : Prop :=
  match os with
  | [] => True
  | obs_visit _ (Some e) :: os' =>
      if is_SkipDir e then ok_trace os' r else os' = [] /\ r = Some e
  | obs_ctx c (Some ce) :: os' =>
      r = Some (ContextErr ce) /\ (os' = [] \/ os' = [obs_ctx c (Some ce)])
  | _ :: os' => ok_trace os' r
  end.

(** The calls of [ctx.Err]. *)
Definition is_ctx_call {X : Type} (e : osE X) : bool :=
  match e with ctx_Err _ => true | _ => false end.

(** Programs that never ask a context for its error. *)
Inductive no_ctx {R : Type} : prog R -> Prop :=
| no_ctx_Ret (r : R) : no_ctx (Ret r)
| no_ctx_Vis {X : Type} (e : osE X) (k : X -> prog R) :
    is_ctx_call e = false -> (forall x, no_ctx (k x)) -> no_ctx (Vis e k).

(* ===================================================================== *)
(** * Predicates on strings and traces, for further properties *)
(* ===================================================================== *)

(** The number of bytes of a string that are equal to [c]. *)
Fixpoint count_byte (c : ascii) (s : string) : nat :=
  match s with
  | EmptyString => O
  | String a s' => if Ascii.eqb c a then S (count_byte c s') else count_byte c s'
  end.

(** The descriptors a trace shows as opened ([fs.OpenFile] or [fs.Open]
    answered without error) and as closed. *)
Definition opened_of (c : called) : option File :=
  match c with
  | Called e x =>
      match e in osE X return X -> option File with
      | fs_OpenFile _ _ _ => fun r => err_free r
      | fs_Open _ => fun r => err_free r
      | _ => fun _ => None
      end x
  end.

Definition closed_of (c : called) : option File :=
  match c with
  | Called e _ =>
      match e with
      | File_Close f => Some f
      | _ => None
      end
  end.

Definition opens (tr : list called) : list File := omap opened_of tr.
Definition closes (tr : list called) : list File := omap closed_of tr.

(** The descriptor behind a [ReadCloser]. *)
Definition rc_file (rc : ReadCloser) : File :=
  match rc with
  | rc_File f => f
  | LimitReadCloser f _ => f
  end.

(** The loop of [Create] over the paths of the layout. *)
Definition create_dirs `{Externals} (be : Pcloud.Pcloud)
    : list string -> prog (result Pcloud.Pcloud) :=
  fix loop (ds : list string) : prog (result Pcloud.Pcloud) :=
    match ds with
    | [] => Ret (Ok be)
    | d :: ds' =>
        err <- call (fs_MkdirAll d Modes_Dir) ;;
        match err with
        | Some e => Ret (Err (errors_Wrap e "MkdirAll"))
        | None => loop ds'
        end
    end.

(** Two programs that make the same calls and return the same results,
    whatever the answers. *)
Inductive same_prog {R : Type} : prog R -> prog R -> Prop :=
| same_Ret (r : R) : same_prog (Ret r) (Ret r)
| same_Vis {X : Type} (e : osE X) (k k' : X -> prog R) :
    (forall x, same_prog (k x) (k' x)) -> same_prog (Vis e k) (Vis e k').

(** The [restic.FileInfo] that [List] reports for an entry. *)
Definition listed_info `{Externals} (entry : string * os_FileInfo) : FileInfo :=
  {| FileInfo_Name := filepath_Base entry.1; Size := fi_Size entry.2 |}.

(** The configuration [ParseConfig] builds from three fields. *)
Definition config_of (user password path : string) : Variant1.Config :=
  {| Variant1.URL := "https://api.pcloud.com"; Variant1.Path := path;
     Variant1.Layout := ""; Variant1.UserName := user;
     Variant1.Password := password; Variant1.AuthToken := "";
     Variant1.Connections := 20 |}.

(** The entries of a directory whose sub-directories are all empty, as the
    walk finds them: each entry is read without error and has nothing
    below it. *)
Definition flat_children (entries : list (string * os_FileInfo)) : list (string * wtree) :=
  (fun en => (en.1, WNode en.2 None [])) <$> entries.

(** What [List] visits among such entries when nothing stops it. *)
Definition listed_visits `{Externals} (entries : list (string * os_FileInfo))
    : list (FileInfo * option error) :=
  (fun en => (listed_info en, None))
    <$> filter (fun en => Pcloud.isFile en.2 = true) entries.

(* ===================================================================== *)
(** * Example inputs *)
(* ===================================================================== *)

Module Example.

Definition cfg : Variant1.Config :=
  {| Variant1.URL := "https://api.pcloud.com"; Variant1.Path := "/repo";
     Variant1.Layout := "default"; Variant1.UserName := "user";
     Variant1.Password := "secret"; Variant1.AuthToken := "";
     Variant1.Connections := 20 |}.

(** The backend that [Open] gives for [cfg]. *)
Definition be : @Pcloud.Pcloud :=
  {| Pcloud.Config := cfg; Pcloud.Layout_ := example_layout "/repo" |}.

Definition h_blob : Handle := {| Handle_Type := DataFile; Handle_Name := "abc" |}.
(** A handle that is not valid: a data file without a name. *)
Definition h_noname : Handle := {| Handle_Type := DataFile; Handle_Name := "" |}.

Definition hi : list Byte.byte := [Byte.x68; Byte.x69; Byte.x21].
Definition rd : Reader := {| rd_bytes := hi; rd_err := None |}.

(** Two contexts: 1 is cancelled, 2 is not. *)
Definition ctx_cancelled : Context := 1%nat.
Definition ctx_live : Context := 2%nat.

Definition mk_world (nodes : gmap string node) (script : gmap string action) : world :=
  {| w_nodes := nodes; w_open := ∅; w_next := 3%nat; w_fault := ∅;
     w_ctx := {[ ctx_cancelled := Canceled ]}; w_visitor := script |}.

(** A repository as [Create] leaves it. *)
Definition repo_nodes : gmap string node :=
  list_to_map [("/", Directory 493); ("/repo", Directory 448);
               ("/repo/data", Directory 448); ("/repo/snapshots", Directory 448);
               ("/repo/index", Directory 448); ("/repo/locks", Directory 448);
               ("/repo/keys", Directory 448)].

Definition w_fresh : world := mk_world repo_nodes ∅.

(** The repository with a config and one data file. *)
Definition w_stored : world :=
  mk_world (<["/repo/config" := RegularFile 384 [Byte.x7b; Byte.x7d]]>
              (<["/repo/data/abc" := RegularFile 384 hi]> repo_nodes)) ∅.

(** A repository with two data files in two directories, and a visitor
    that answers [SkipDir] on the first. *)
Definition w_nested : world :=
  mk_world (<["/repo/data/00" := Directory 448]>
              (<["/repo/data/00/a" := RegularFile 384 hi]>
                 (<["/repo/data/01" := Directory 448]>
                    (<["/repo/data/01/b" := RegularFile 384 hi]> repo_nodes))))
           {[ "a" := act_fail SkipDir ]}.

(** The same, with a visitor that fails on the data file. *)
Definition w_fail : world :=
  mk_world (<["/repo/data/abc" := RegularFile 384 hi]> repo_nodes)
           {[ "abc" := act_fail (errors_New "stop") ]}.

(** The same, with a visitor that cancels the live context. *)
Definition w_cancel : world :=
  mk_world (<["/repo/data/abc" := RegularFile 384 hi]> repo_nodes)
           {[ "abc" := act_cancel ctx_live Canceled ]}.

(** The same, with a visitor that cancels the live context and fails. *)
Definition w_cancel_fail : world :=
  mk_world (<["/repo/data/abc" := RegularFile 384 hi]> repo_nodes)
           {[ "abc" := act_cancel_fail ctx_live Canceled (errors_New "stop") ]}.

End Example.

(** Further inputs. *)
Module Example2.

Import Example.

(** A file system that holds the root directory only. *)
Definition w_bare : world := mk_world {[ "/" := Directory 493 ]} ∅.

(** A file system in which the path of the repository is a file. *)
Definition w_blocked : world :=
  mk_world (<["/repo" := RegularFile 384 hi]> {[ "/" := Directory 493 ]}) ∅.

(** A reader that fails after three bytes. *)
Definition rd_broken : Reader :=
  {| rd_bytes := hi; rd_err := Some (errors_New "unexpected EOF") |}.

(** The layout of [be] with the flag of [Basedir] set, and its backend. *)
Definition layout_subdirs : Layout :=
  {| Layout_Name := Layout_Name (example_layout "/repo");
     Dirname := Dirname (example_layout "/repo");
     Filename := Filename (example_layout "/repo");
     Paths := Paths (example_layout "/repo");
     Basedir := fun t => ((Basedir (example_layout "/repo") t).1, true) |}.

Definition be_subdirs : @Pcloud.Pcloud :=
  {| Pcloud.Config := cfg; Pcloud.Layout_ := layout_subdirs |}.

(** The repository with a data file, an empty directory and a second data
    file in the directory of the data files. *)
Definition w_mixed : world :=
  mk_world (<["/repo/data/abc" := RegularFile 384 hi]>
              (<["/repo/data/empty" := Directory 448]>
                 (<["/repo/data/xyz" := RegularFile 384 []]> repo_nodes))) ∅.

End Example2.

(* ===================================================================== *)
(** * Properties of Go strings *)
(* ===================================================================== *)

Unset Implicit Arguments.

Lemma string_app_cons (x : ascii) (a b : string) :
  String x a +:+ b = String x (a +:+ b).
Proof. reflexivity. Qed.

Lemma string_app_assoc (a b c : string) : (a +:+ b) +:+ c = a +:+ (b +:+ c).
Proof. induction a as [|x a IH]; [done|]. by rewrite !string_app_cons, IH. Qed.

Lemma string_app_length (a b : string) :
  String.length (a +:+ b) = (String.length a + String.length b)%nat.
Proof. induction a as [|x a IH]; [done|]. rewrite string_app_cons. cbn. by rewrite IH. Qed.

Lemma HasPrefix_split (s pre : string) :
  HasPrefix s pre = true -> s = pre +:+ slice_from s (String.length pre).
Proof.
  revert s. induction pre as [|a pre IH]; intros s Hp; [done|].
  destruct s as [|b s]; [done|]. cbn in Hp.
  destruct (Ascii.eqb_spec a b) as [->|]; [|done].
  rewrite string_app_cons. cbn. f_equal. by apply IH.
Qed.

Lemma slice_from_add (s : string) (n m : nat) :
  slice_from s (n + m) = slice_from (slice_from s n) m.
Proof.
  revert s. induction n as [|n IH]; intros s; [done|].
  destruct s as [|a s]; cbn; [by destruct m|]. apply IH.
Qed.

Lemma slice_to_from (s : string) (n : nat) : slice_to s n +:+ slice_from s n = s.
Proof.
  revert s. induction n as [|n IH]; intros s; [done|].
  destruct s as [|a s]; [done|]. cbn [slice_to slice_from].
  by rewrite string_app_cons, IH.
Qed.

Lemma index_of_HasPrefix (s sep : string) (m : nat) :
  index_of s sep = Some m -> HasPrefix (slice_from s m) sep = true.
Proof.
  revert m. induction s as [|a s IH]; intros m.
  - cbn. destruct (HasPrefix "" sep) eqn:Hp; [|done]. by intros [= <-].
  - cbn [index_of]. destruct (HasPrefix (String a s) sep) eqn:Hp.
    + by intros [= <-].
    + destruct (index_of s sep) as [k|] eqn:Hk; [|done].
      intros [= <-]. cbn. by apply IH.
Qed.

(** A cut at the first separator: the part before it, the separator and
    the part after it give the string back. *)
Lemma index_of_split (s sep : string) (m : nat) :
  index_of s sep = Some m ->
  s = slice_to s m +:+ sep +:+ slice_from s (m + String.length sep).
Proof.
  intros Hm. apply index_of_HasPrefix, HasPrefix_split in Hm.
  rewrite slice_from_add, <- Hm. symmetry. apply slice_to_from.
Qed.

Lemma split_loop_nonempty (n : nat) (s sep : string) : split_loop n s sep <> [].
Proof. destruct n; cbn; [done|]. by destruct (Index s sep <? 0). Qed.

(** Joining the pieces of [split_loop] with the separator gives the string
    back. *)
Lemma split_loop_concat (n : nat) (s sep : string) :
  String.concat sep (split_loop n s sep) = s.
Proof.
  revert s. induction n as [|n IH]; intros s; [done|].
  cbn [split_loop]. unfold Index.
  destruct (index_of s sep) as [m|] eqn:Hm; [|done].
  destruct (Z.ltb_spec (Z.of_nat m) 0) as [?|_]; [lia|].
  rewrite Nat2Z.id.
  set (rest := slice_from s (m + String.length sep)).
  assert (String.concat sep (slice_to s m :: split_loop n rest sep)
          = slice_to s m +:+ sep +:+ String.concat sep (split_loop n rest sep)) as ->.
  { pose proof (split_loop_nonempty n rest sep) as Hne.
    cbn [String.concat]. by destruct (split_loop n rest sep). }
  rewrite IH. symmetry. by apply index_of_split.
Qed.

Lemma split_loop_length (n : nat) (s sep : string) :
  (length (split_loop n s sep) <= S n)%nat.
Proof.
  revert s. induction n as [|n IH]; intros s; [done|].
  cbn [split_loop]. destruct (Index s sep <? 0); cbn; [lia|].
  specialize (IH (slice_from s (Z.to_nat (Index s sep) + String.length sep))). lia.
Qed.

(** Three fields of [SplitN(s, ":", 3)] are the whole of [s]. *)
Lemma SplitN_3_fields (s d0 d1 d2 : string) (tl : list string) :
  SplitN s ":" 3 = d0 :: d1 :: d2 :: tl ->
  tl = [] /\ s = d0 +:+ ":" +:+ d1 +:+ ":" +:+ d2.
Proof.
  unfold SplitN. intros Hs.
  pose proof (split_loop_length (Nat.min 3 (S (String.length s)) - 1) s ":") as Hlen.
  pose proof (split_loop_concat (Nat.min 3 (S (String.length s)) - 1) s ":") as Hcat.
  rewrite Hs in Hlen, Hcat. cbn [length] in Hlen.
  destruct tl as [|x tl]; [|cbn [length] in Hlen; lia].
  split; [done|]. by rewrite <- Hcat.
Qed.

(* ===================================================================== *)
(** * config.go: the two variants of ParseConfig *)
(* ===================================================================== *)

Lemma ParseConfig1_inv (s : string) (c1 : Variant1.Config) :
  Variant1.ParseConfig s = Ok c1 ->
  s = "pcloud:" +:+ Variant1.UserName c1 +:+ ":" +:+ Variant1.Password c1
        +:+ ":" +:+ Variant1.Path c1.
Proof.
  unfold Variant1.ParseConfig. destruct (HasPrefix s "pcloud:") eqn:Hp; [|done].
  cbn [negb]. apply HasPrefix_split in Hp. cbn [String.length] in Hp.
  destruct (SplitN (slice_from s 7) ":" 3) as [|d0 [|d1 [|d2 tl]]] eqn:Hs; try done.
  intros [= <-]. cbn. apply SplitN_3_fields in Hs as [_ Hs]. by rewrite <- Hs.
Qed.

Lemma ParseConfig2_inv (s : string) (c2 : Variant2.Config) :
  Variant2.ParseConfig s = Ok c2 ->
  exists rest, s = "pcloud:" +:+ rest /\ Variant2.Path c2 = ":" +:+ rest.
Proof.
  unfold Variant2.ParseConfig. destruct (HasPrefix s "pcloud:") eqn:Hp; [|done].
  cbn [negb]. apply HasPrefix_split in Hp. cbn [String.length] in Hp.
  intros [= <-]. exists (slice_from s 7). split; [done|]. cbn [Variant2.Path].
  by rewrite Hp at 1.
Qed.

(** C10, as the claim states it, fails: on an input both variants accept,
    the first variant's Path is the third field, the second variant's Path
    is everything after the word pcloud. *)
Lemma ParseConfig_variants_disagree :
  Variant1.Path <$> err_free (Variant1.ParseConfig "pcloud:user:secret:/backups")
    = Some "/backups"
  /\ Variant2.Path <$> err_free (Variant2.ParseConfig "pcloud:user:secret:/backups")
    = Some ":user:secret:/backups"
  /\ ~ (forall c1 c2,
          Variant1.ParseConfig "pcloud:user:secret:/backups" = Ok c1 ->
          Variant2.ParseConfig "pcloud:user:secret:/backups" = Ok c2 ->
          Variant1.Path c1 = Variant2.Path c2).
Proof.
  split; [reflexivity|]. split; [reflexivity|].
  intros Heq. by specialize (Heq _ _ eq_refl eq_refl).
Qed.

(** C10 (amended): on every input that both variants accept, the Path of
    the second variant ends with the UserName, a colon, the Password, a
    colon and the Path of the first variant; the first variant's Path is a
    proper suffix of the second's, and the two are never equal. *)
Theorem ParseConfig_variants_Path (s : string)
    (c1 : Variant1.Config) (c2 : Variant2.Config) :
  Variant1.ParseConfig s = Ok c1 ->
  Variant2.ParseConfig s = Ok c2 ->
  (exists pre, Variant2.Path c2
               = pre +:+ Variant1.UserName c1 +:+ ":" +:+ Variant1.Password c1
                     +:+ ":" +:+ Variant1.Path c1)
  /\ Variant1.Path c1 <> Variant2.Path c2.
Proof.
  intros H1 H2. apply ParseConfig1_inv in H1.
  apply ParseConfig2_inv in H2 as (rest & Hs & Hpath).
  rewrite H1 in Hs. apply (inj (String.app "pcloud:")) in Hs. subst rest.
  split; [by exists ":"|].
  intros Heq. apply (f_equal String.length) in Heq. rewrite Hpath in Heq.
  rewrite !string_app_length in Heq. cbn [String.length] in Heq. lia.
Qed.

(** The two variants on an input both accept. *)
Lemma ParseConfig_variants_Path_witness :
  exists c1 c2,
    Variant1.ParseConfig "pcloud:user:secret:/backups" = Ok c1
    /\ Variant2.ParseConfig "pcloud:user:secret:/backups" = Ok c2
    /\ (exists pre, Variant2.Path c2
                    = pre +:+ Variant1.UserName c1 +:+ ":" +:+ Variant1.Password c1
                          +:+ ":" +:+ Variant1.Path c1)
    /\ Variant1.Path c1 <> Variant2.Path c2.
Proof.
  eexists _, _. split; [reflexivity|]. split; [reflexivity|].
  exact (ParseConfig_variants_Path "pcloud:user:secret:/backups" _ _ eq_refl eq_refl).
Defined.

(* ===================================================================== *)
(** * layout_pcloud.go: Filename *)
(* ===================================================================== *)

Lemma Filename_Config (paths : list (FileType * string))
    (l : layout_pcloud.PcloudLayout) (h : Handle) :
  Handle_Type h = ConfigFile ->
  layout_pcloud.Filename paths l h
  = layout_pcloud.URL l
      +:+ layout_pcloud.Join l [layout_pcloud.Path l; "/";
                                layout_pcloud.paths_lookup paths ConfigFile; "config"].
Proof. intros Hc. unfold layout_pcloud.Filename. rewrite Hc. by rewrite decide_True. Qed.


Lemma example_Join_keeps_config (elems : list string) :
  exists p, example_Join (elems ++ ["config"]) = p +:+ "config".
Proof.
  induction elems as [|e elems [p IH]]; [by exists ""|].
  cbn [app example_Join]. case_bool_decide; [by exists p|].
  rewrite IH. exists (e +:+ "/" +:+ p).
  rewrite !string_app_assoc. by destruct p.
Qed.


(* ===================================================================== *)
(** * Running programs *)
(* ===================================================================== *)

Section RunLemmas.

Variable W : Type.
Variable handle : forall X : Type, osE X -> W -> X * W.

Lemma run_bind {A B : Type} (p : prog A) (k : A -> prog B) (w : W) :
  run handle (bind p k) w
  = let '(a, w1, t1) := run handle p w in
    let '(b, w2, t2) := run handle (k a) w1 in
    (b, w2, t1 ++ t2).
Proof.
  revert w. induction p as [a|X e c IH]; intros w; cbn [bind run].
  - by destruct (run handle (k a) w) as [[b w2] t2].
  - destruct (handle X e w) as [x w1]. rewrite IH.
    destruct (run handle (c x) w1) as [[a w2] t1].
    by destruct (run handle (k a) w2) as [[b w3] t2].
Qed.

Lemma run_call {X : Type} (e : osE X) (w : W) :
  run handle (call e) w
  = let '(x, w1) := handle X e w in (x, w1, [Called e x]).
Proof. cbn. by destruct (handle X e w). Qed.

End RunLemmas.

Lemma visits_app (t1 t2 : list called) : visits (t1 ++ t2) = visits t1 ++ visits t2.
Proof. apply omap_app. Qed.

Lemma ctx_checks_app (t1 t2 : list called) :
  ctx_checks (t1 ++ t2) = ctx_checks t1 ++ ctx_checks t2.
Proof. apply omap_app. Qed.

(* ===================================================================== *)
(** * Handle validation *)
(* ===================================================================== *)

Section Validation.

Context `{Externals}.

(** [Save], [Load] and [Stat] return the error of [Valid] before they
    make any call. *)
Lemma invalid_handle_no_call (b : Pcloud.Pcloud) (ctx : Context) (h : Handle)
    (err : error) :
  Valid h = Some err ->
  (forall rd, Pcloud.Save b ctx h rd = Ret (Some err))
  /\ (forall length offset, Pcloud.Load b ctx h length offset = Ret (Err err))
  /\ Pcloud.Stat b ctx h = Ret (FileInfo_zero, Some err).
Proof.
  intros Hv. unfold Pcloud.Save, Pcloud.Load, Pcloud.Stat. by rewrite Hv.
Qed.

(** The handles the claim calls invalid are those [Valid] refuses. *)
Lemma Valid_refuses (h : Handle) :
  (Handle_Name h = "" /\ Handle_Type h <> ConfigFile)
  \/ (exists s, Handle_Type h = OtherFile s)
  <-> exists err, Valid h = Some err.
Proof.
  unfold Valid. destruct h as [t n]; cbn. split.
  - intros [[-> Ht]|[s Hs]]; destruct t; cbn; eauto; done.
  - intros [err Hv]. destruct t; try case_decide; try done; eauto.
Qed.

End Validation.

(* ===================================================================== *)
(** * Test and Stat *)
(* ===================================================================== *)

Section TestStat.

Context `{Externals}.

(** What [Test] makes of the answer of [fs.Stat], in every environment. *)
Lemma Test_run (W : Type) (handle : forall X : Type, osE X -> W -> X * W)
    (b : Pcloud.Pcloud) (ctx : Context) (h : Handle) (w : W) :
  run handle (Pcloud.Test b ctx h) w
  = let '(st, w1) := handle _ (fs_Stat (Filename (Pcloud.Layout_ b) h)) w in
    (match st with
     | Ok _ => (true, None)
     | Err e => if os_IsNotExist (errors_Cause (Some e)) then (false, None)
                else (false, Some (errors_Wrap e "Stat"))
     end, w1, [Called (fs_Stat (Filename (Pcloud.Layout_ b) h)) st]).
Proof.
  unfold Pcloud.Test. cbn [bind call run].
  destruct (handle _ (fs_Stat (Filename (Pcloud.Layout_ b) h)) w) as [[fi|e] w1];
    [done|].
  by destruct (os_IsNotExist (errors_Cause (Some e))).
Qed.

(** What [Stat] makes of the answer of [fs.Stat], in every environment. *)
Lemma Stat_run (W : Type) (handle : forall X : Type, osE X -> W -> X * W)
    (b : Pcloud.Pcloud) (ctx : Context) (h : Handle) (w : W) :
  Valid h = None ->
  run handle (Pcloud.Stat b ctx h) w
  = let '(st, w1) := handle _ (fs_Stat (Filename (Pcloud.Layout_ b) h)) w in
    (match st with
     | Ok fi => ({| Size := fi_Size fi; FileInfo_Name := Handle_Name h |}, None)
     | Err e => (FileInfo_zero, Some (errors_Wrap e "Stat"))
     end, w1, [Called (fs_Stat (Filename (Pcloud.Layout_ b) h)) st]).
Proof.
  intros Hv. unfold Pcloud.Stat. rewrite Hv. cbn [bind call run].
  by destruct (handle _ (fs_Stat (Filename (Pcloud.Layout_ b) h)) w) as [[fi|e] w1]; cbn.
Qed.


End TestStat.

Section StatLoad.

Context `{Externals}.

(** C8: for a valid handle whose object is stored, [Stat] returns the
    length of the object in bytes as Size and the Name of the handle as
    Name, and no error; for a handle that is not valid, and for a valid
    handle whose object is missing, it returns an error and the zero
    file info. *)
Theorem Stat_size_and_name (b : Pcloud.Pcloud) (ctx : Context) (h : Handle) (w : world) :
  let f := Filename (Pcloud.Layout_ b) h in
  let r := (run os_handle (Pcloud.Stat b ctx h) w).1.1 in
  (forall perm data,
      Valid h = None -> w_fault w !! f = None ->
      w_nodes w !! f = Some (RegularFile perm data) ->
      r = ({| Size := Z.of_nat (length data); FileInfo_Name := Handle_Name h |}, None))
  /\ (forall err, Valid h = Some err -> r = (FileInfo_zero, Some err))
  /\ (Valid h = None -> w_fault w !! f = None -> w_nodes w !! f = None ->
      r = (FileInfo_zero, Some (errors_Wrap (PathError "stat" f ENOENT) "Stat"))).
Proof.
  intros f r. subst r. repeat split.
  - intros perm data Hv Hf Hn. rewrite Stat_run by done. fold f.
    cbn [os_handle]. unfold do_Stat, fault. by rewrite Hf, Hn.
  - intros err Hv.
    destruct (invalid_handle_no_call b ctx h err Hv) as (_ & _ & ->). done.
  - intros Hv Hf Hn. rewrite Stat_run by done. fold f.
    cbn [os_handle]. unfold do_Stat, fault. by rewrite Hf, Hn.
Qed.

Lemma handle_Open_stored (w : world) (f : string) (perm : FileMode)
    (data : list Byte.byte) :
  w_fault w !! f = None ->
  w_nodes w !! f = Some (RegularFile perm data) ->
  os_handle (fs_Open f) w = open_new w f.
Proof. intros Hf Hn. cbn [os_handle]. unfold do_OpenFile, fault. by rewrite Hf, Hn. Qed.

Lemma handle_Seek_start (w : world) (fd : File) (o : open_file) (offset : Z) :
  w_open w !! fd = Some o ->
  0 <= offset ->
  os_handle (File_Seek fd offset 0) w
  = (Ok offset,
     set_open w (<[fd := {| of_name := of_name o; of_offset := offset |}]> (w_open w))
              (w_next w)).
Proof.
  intros Ho Hpos. cbn [os_handle]. unfold do_Seek. rewrite Ho. cbn [Z.eqb].
  rewrite Z.add_0_l. by destruct (Z.ltb_spec offset 0); [lia|].
Qed.

Lemma ReadAll_stored (w : world) (rc : ReadCloser) (fd : File) (o : open_file)
    (perm : FileMode) (data : list Byte.byte) :
  w_open w !! fd = Some o ->
  w_nodes w !! of_name o = Some (RegularFile perm data) ->
  ReadAll w (rc_File fd) = Ok (drop (Z.to_nat (of_offset o)) data)
  /\ forall n, ReadAll w (LimitReadCloser fd n)
               = Ok (take (Z.to_nat n) (drop (Z.to_nat (of_offset o)) data)).
Proof. intros Ho Hn. unfold ReadAll. by rewrite Ho, Hn. Qed.

(** C9: for a valid handle, [Load] returns an error for every negative
    offset, without a call to the file system.  For an offset that is
    not negative and a stored object, it returns a reader; read to its
    end, the reader yields, for length > 0, at most length bytes of the
    object from position offset on, and for length = 0 all of the object
    from position offset to its end. *)
Theorem Load_yields_range (b : Pcloud.Pcloud) (ctx : Context) (h : Handle)
    (length offset : Z) (w : world) :
  Valid h = None ->
  let f := Filename (Pcloud.Layout_ b) h in
  (offset < 0 ->
   exists err, Pcloud.Load b ctx h length offset = Ret (Err err))
  /\ (0 <= offset ->
      forall perm data,
        w_fault w !! f = None ->
        w_nodes w !! f = Some (RegularFile perm data) ->
        exists rc w' tr,
          run os_handle (Pcloud.Load b ctx h length offset) w = (Ok rc, w', tr)
          /\ (0 < length -> ReadAll w' rc
                            = Ok (take (Z.to_nat length) (drop (Z.to_nat offset) data)))
          /\ (length = 0 -> ReadAll w' rc = Ok (drop (Z.to_nat offset) data))).
Proof.
  intros Hv f. unfold Pcloud.Load. rewrite Hv. fold f. split.
  - intros Hneg. destruct (Z.ltb_spec offset 0); [eauto|lia].
  - intros Hpos perm data Hf Hn.
    destruct (Z.ltb_spec offset 0); [lia|].
    cbn [bind call run]. rewrite (handle_Open_stored w f perm data Hf Hn).
    unfold open_new. set (fd := w_next w).
    set (w1 := set_open w _ _).
    assert (w_open w1 !! fd = Some {| of_name := f; of_offset := 0 |}) as Ho1
      by apply lookup_insert_eq.
    destruct (Z.ltb_spec 0 offset) as [Hlt|Hle].
    + cbn [bind call run]. rewrite (handle_Seek_start w1 fd _ offset Ho1 Hpos).
      cbn [bind run of_name]. set (w2 := set_open w1 _ _).
      destruct (ReadAll_stored w2 (rc_File fd) fd {| of_name := f; of_offset := offset |}
                  perm data) as [Hall Hlim]; [apply lookup_insert_eq|exact Hn|].
      destruct (Z.ltb_spec 0 length) as [Hl|Hl]; cbn [run]; eexists _, _, _;
        (split; [reflexivity|]); split; intros Hlen; try lia.
      * apply Hlim.
      * apply Hall.
    + assert (offset = 0) as -> by lia. cbn [bind run].
      destruct (ReadAll_stored w1 (rc_File fd) fd {| of_name := f; of_offset := 0 |}
                  perm data) as [Hall Hlim]; [exact Ho1|exact Hn|].
      destruct (Z.ltb_spec 0 length) as [Hl|Hl]; cbn [run]; eexists _, _, _;
        (split; [reflexivity|]); split; intros Hlen; try lia.
      * apply Hlim.
      * apply Hall.
Qed.

End StatLoad.

(* ===================================================================== *)
(** * Save *)
(* ===================================================================== *)

Section SaveFrame.

Context `{Externals}.

Lemma mkdir_chain_keeps (path : string) (chain : list string) (perm : FileMode)
    (nodes : gmap string node) (p : string) (n : node) :
  nodes !! p = Some n ->
  (mkdir_chain path chain perm nodes).2 !! p = Some n.
Proof.
  revert nodes. induction chain as [|d chain IH]; intros nodes Hp; [done|].
  cbn [mkdir_chain]. destruct (nodes !! d) as [[?|?]|] eqn:Hd; [done|by apply IH|].
  apply IH. rewrite lookup_insert_ne; [done|]. by intros ->; rewrite Hp in Hd.
Qed.

(** [MkdirAll] changes no node that is there. *)
Lemma MkdirAll_keeps (path : string) (perm : FileMode) (w : world) (p : string) (n : node) :
  w_nodes w !! p = Some n ->
  w_nodes (do_MkdirAll path perm w).2 !! p = Some n.
Proof.
  intros Hp. unfold do_MkdirAll. destruct (fault w "mkdir" path); [done|].
  pose proof (mkdir_chain_keeps path (dir_chain path) perm (w_nodes w) p n Hp) as Hk.
  by destruct (mkdir_chain path (dir_chain path) perm (w_nodes w)).
Qed.

(** Opening with O_CREATE|O_EXCL: a path that holds something is not
    opened, and nothing changes; a path that is opened is new, empty, and
    the only change. *)
Lemma OpenFile_excl (f : string) (perm : FileMode) (w : world) :
  match do_OpenFile f save_flags perm w with
  | (Err _, w1) => w1 = w
  | (Ok fd, w1) =>
      w_nodes w !! f = None
      /\ w_nodes w1 = <[f := RegularFile perm []]> (w_nodes w)
      /\ w_open w1 !! fd = Some {| of_name := f; of_offset := 0 |}
  end.
Proof.
  unfold do_OpenFile. destruct (fault w "open" f); [done|].
  destruct (w_nodes w !! f) as [n|] eqn:Hn; [done|].
  cbn [save_flags has_flag]. change (negb (Z.land save_flags O_CREATE =? 0)) with true.
  cbn match. destruct (w_nodes w !! parent_dir f) as [[?|?]|]; try done.
  unfold open_new. cbn. split; [done|]. split; [done|]. apply lookup_insert_eq.
Qed.

(** Writing through a descriptor changes the file it names only. *)
Lemma Copy_frame (fd : File) (rd : Reader) (w : world) (o : open_file) (p : string) :
  w_open w !! fd = Some o ->
  p <> of_name o ->
  w_nodes (do_Copy fd rd w).2 !! p = w_nodes w !! p.
Proof.
  intros Ho Hp. unfold do_Copy. rewrite Ho.
  destruct (w_nodes w !! of_name o) as [[perm data|?]|]; try done.
  cbn. by rewrite lookup_insert_ne.
Qed.

Lemma Sync_nodes (fd : File) (w : world) : w_nodes (do_Sync fd w).2 = w_nodes w.
Proof. unfold do_Sync. by destruct (w_open w !! fd). Qed.

Lemma Close_nodes (fd : File) (w : world) : w_nodes (do_Close fd w).2 = w_nodes w.
Proof. unfold do_Close. by destruct (w_open w !! fd). Qed.

Lemma Chmod_frame (name : string) (mode : FileMode) (w : world) (p : string) :
  p <> name ->
  w_nodes (do_Chmod name mode w).2 !! p = w_nodes w !! p.
Proof.
  intros Hp. unfold do_Chmod. destruct (fault w "chmod" name); [done|].
  destruct (w_nodes w !! name); [|done]. cbn. by rewrite lookup_insert_ne.
Qed.

Lemma Save_phases (b : Pcloud.Pcloud) (ctx : Context) (h : Handle) (rd : Reader) :
  Valid h = None ->
  Pcloud.Save b ctx h rd
  = (r <- open_phase b (Filename (Pcloud.Layout_ b) h) ;;
     write_phase (Filename (Pcloud.Layout_ b) h) rd r).
Proof. intros Hv. unfold Pcloud.Save. rewrite Hv. reflexivity. Qed.

Lemma open_phase_run (b : Pcloud.Pcloud) (f : string) (w : world) :
  match run os_handle (open_phase b f) w with
  | (r, w1, _) =>
      (forall p n, w_nodes w !! p = Some n -> w_nodes w1 !! p = Some n)
      /\ match r with
         | Err _ => True
         | Ok fd =>
             w_nodes w !! f = None
             /\ w_nodes w1 !! f = Some (RegularFile Modes_File [])
             /\ w_open w1 !! fd = Some {| of_name := f; of_offset := 0 |}
         end
  end.
Proof.
  unfold open_phase. cbn [bind call run os_handle].
  pose proof (OpenFile_excl f Modes_File w) as H1.
  destruct (do_OpenFile f save_flags Modes_File w) as [[fd|e] w1].
  - destruct H1 as (Hnew & Hnodes & Hopen).
    cbn. split; [|by rewrite Hnodes, lookup_insert_eq].
    intros p n Hp. rewrite Hnodes, lookup_insert_ne; [done|].
    by intros <-; rewrite Hnew in Hp.
  - subst w1. destruct (Pcloud.IsNotExist b (err_of (Err e))); [|by cbn].
    cbn [bind call run os_handle].
    pose proof (fun p n => MkdirAll_keeps (filepath_Dir f) Modes_Dir w p n) as Hkeep.
    destruct (do_MkdirAll (filepath_Dir f) Modes_Dir w) as [[e'|] w2]; [by cbn|].
    cbn [bind call run os_handle].
    pose proof (OpenFile_excl f Modes_File w2) as H2.
    destruct (do_OpenFile f save_flags Modes_File w2) as [[fd|e2] w3].
    + destruct H2 as (Hnew & Hnodes & Hopen). cbn in Hkeep.
      split; [|split; [|by rewrite Hnodes, lookup_insert_eq]].
      * intros p n Hp. rewrite Hnodes, lookup_insert_ne; [by apply Hkeep|].
        intros <-. apply Hkeep in Hp. by rewrite Hnew in Hp.
      * destruct (w_nodes w !! f) as [n|] eqn:Hn; [|done].
        apply Hkeep in Hn. by rewrite Hnew in Hn.
    + subst w3. by split.
Qed.

Lemma write_phase_run (f : string) (rd : Reader) (fd : File) (w : world) (p : string) :
  w_open w !! fd = Some {| of_name := f; of_offset := 0 |} ->
  p <> f ->
  w_nodes (run os_handle (write_phase f rd (Ok fd)) w).1.2 !! p = w_nodes w !! p.
Proof.
  intros Ho Hp. unfold write_phase. cbn [bind call run os_handle].
  pose proof (Copy_frame fd rd w _ p Ho Hp) as Hc.
  destruct (do_Copy fd rd w) as [[e|] w1]; cbn [snd] in Hc.
  - cbn [bind call run os_handle]. pose proof (Close_nodes fd w1) as Hcl.
    destruct (do_Close fd w1) as [x w2]. cbn in *. by rewrite Hcl.
  - cbn [bind call run os_handle]. pose proof (Sync_nodes fd w1) as Hs.
    destruct (do_Sync fd w1) as [[e|] w2]; cbn [snd] in Hs.
    + cbn [bind call run os_handle]. pose proof (Close_nodes fd w2) as Hcl.
      destruct (do_Close fd w2) as [x w3]. cbn in *. by rewrite Hcl, Hs.
    + cbn [bind call run os_handle]. pose proof (Close_nodes fd w2) as Hcl.
      destruct (do_Close fd w2) as [[e|] w3]; cbn [snd] in Hcl.
      * cbn. by rewrite Hcl, Hs.
      * cbn [bind call run os_handle].
        pose proof (Chmod_frame f Modes_File w3 p Hp) as Hm.
        destruct (do_Chmod f Modes_File w3) as [x w4]. cbn in *.
        by rewrite Hm, Hcl, Hs.
Qed.

End SaveFrame.

Section SaveTheorem.

Context `{Externals}.

(** C5: [Save] never changes a stored object.  For a valid handle whose
    filename already holds an object, [Save] returns an error and the
    object is as it was; and when [Save] succeeds, its filename held
    nothing before, and every object that was stored before is still
    there, unchanged. *)
Theorem Save_never_overwrites (b : Pcloud.Pcloud) (ctx : Context) (h : Handle)
    (rd : Reader) (w : world) :
  Valid h = None ->
  let f := Filename (Pcloud.Layout_ b) h in
  let r := (run os_handle (Pcloud.Save b ctx h rd) w).1.1 in
  let w' := (run os_handle (Pcloud.Save b ctx h rd) w).1.2 in
  (forall n, w_nodes w !! f = Some n ->
             (exists err, r = Some err) /\ w_nodes w' !! f = Some n)
  /\ (r = None ->
      w_nodes w !! f = None
      /\ forall p n, w_nodes w !! p = Some n -> w_nodes w' !! p = Some n).
Proof.
  intros Hv f r w'. subst r w'. rewrite (Save_phases b ctx h rd Hv). fold f.
  rewrite run_bind. pose proof (open_phase_run b f w) as Hopen.
  destruct (run os_handle (open_phase b f) w) as [[r1 w1] t1].
  destruct Hopen as [Hkeep Hr1]. destruct r1 as [fd|e].
  - destruct Hr1 as (Hnew & Hf1 & Hfd).
    pose proof (fun p => write_phase_run f rd fd w1 p Hfd) as Hframe.
    destruct (run os_handle (write_phase f rd (Ok fd)) w1) as [[r2 w2] t2].
    cbn [fst snd] in *. split.
    + intros n Hn. by rewrite Hnew in Hn.
    + intros _. split; [done|]. intros p n Hp.
      rewrite Hframe; [by apply Hkeep|]. intros ->. by rewrite Hnew in Hp.
  - cbn. split; [|done]. intros n Hn. split; [eauto|]. by apply Hkeep.
Qed.

End SaveTheorem.

(* ===================================================================== *)
(** * Create *)
(* ===================================================================== *)

Section CreateTheorem.

Context `{Externals}.

(** [Create] when [fs.Lstat] finds the config file, in every
    environment: the error, the state the two lookups left, and a trace
    of the two lookups only. *)
Lemma Create_run_exists (W : Type) (handle : forall X : Type, osE X -> W -> X * W)
    (cfg : Variant1.Config) (rt : RoundTripper) (w w1 w2 : W)
    (l : Layout) (fi : os_FileInfo) :
  handle _ (backend_ParseLayout (Variant1.Layout cfg) Pcloud.defaultLayout
              (Variant1.Path cfg)) w = (Ok l, w1) ->
  handle _ (fs_Lstat (Filename l config_handle)) w1 = (Ok fi, w2) ->
  run handle (Pcloud.Create cfg rt) w
  = (Err (errors_New "config file already exists"), w2,
     [Called (backend_ParseLayout (Variant1.Layout cfg) Pcloud.defaultLayout
                (Variant1.Path cfg)) (Ok l);
      Called (fs_Lstat (Filename l config_handle)) (Ok fi)]).
Proof.
  intros Hl Hs. unfold Pcloud.Create. cbn [bind call run]. rewrite Hl.
  cbn [bind call run Pcloud.Layout_]. fold config_handle. by rewrite Hs.
Qed.

(** C4: [Create] fails with an error whenever a config object exists at
    the config filename of the layout, and then creates no directory.
    In every environment: when the layout cannot be parsed, [Create]
    returns that error and calls no [MkdirAll]; when the layout is parsed
    and [fs.Lstat] finds the config file, the result is an error, no
    [MkdirAll] is called, and the environment is left in the state the two
    lookups left it in.  In the in-memory file system: the state after
    [Create] is the state before it. *)
Theorem Create_existing_config (cfg : Variant1.Config) (rt : RoundTripper) :
  (forall (W : Type) (handle : forall X : Type, osE X -> W -> X * W)
          (w w1 : W) (err : error),
      handle _ (backend_ParseLayout (Variant1.Layout cfg) Pcloud.defaultLayout
                  (Variant1.Path cfg)) w = (Err err, w1) ->
      exists tr,
        run handle (Pcloud.Create cfg rt) w = (Err err, w1, tr)
        /\ mkdirs_of tr = [])
  /\ (forall (W : Type) (handle : forall X : Type, osE X -> W -> X * W)
          (w w1 w2 : W) (l : Layout) (fi : os_FileInfo),
      handle _ (backend_ParseLayout (Variant1.Layout cfg) Pcloud.defaultLayout
                  (Variant1.Path cfg)) w = (Ok l, w1) ->
      handle _ (fs_Lstat (Filename l config_handle)) w1 = (Ok fi, w2) ->
      exists err tr,
        run handle (Pcloud.Create cfg rt) w = (Err err, w2, tr)
        /\ mkdirs_of tr = [])
  /\ (forall (w : world) (l : Layout) (n : node),
        do_ParseLayout (Variant1.Layout cfg) Pcloud.defaultLayout (Variant1.Path cfg)
          = Ok l ->
        w_fault w !! Filename l config_handle = None ->
        w_nodes w !! Filename l config_handle = Some n ->
        exists err tr,
          run os_handle (Pcloud.Create cfg rt) w = (Err err, w, tr)
          /\ mkdirs_of tr = []).
Proof.
  split; [|split].
  - intros W handle w w1 err Hl. unfold Pcloud.Create. cbn [bind call run].
    rewrite Hl. by eexists.
  - intros W handle w w1 w2 l fi Hl Hs.
    rewrite (Create_run_exists W handle cfg rt w w1 w2 l fi Hl Hs). by eexists _, _.
  - intros w l n Hl Hf Hn.
    rewrite (Create_run_exists world (@os_handle) cfg rt w w w l (info_of n)).
    + by eexists _, _.
    + cbn [os_handle]. by rewrite Hl.
    + cbn [os_handle]. unfold do_Stat, fault. by rewrite Hf, Hn.
Qed.

End CreateTheorem.

(* ===================================================================== *)
(** * The walk of List *)
(* ===================================================================== *)

Lemma wtree_induction (P : wtree -> Prop) :
  (forall err, P (WLstatErr err)) ->
  (forall info rderr cs, Forall (fun c => P c.2) cs -> P (WNode info rderr cs)) ->
  forall t, P t.
Proof.
  intros Herr Hnode. fix IH 1. intros [err|info rderr cs]; [apply Herr|].
  apply Hnode. induction cs as [|[p c] cs IHcs]; constructor; [apply IH|apply IHcs].
Qed.

Lemma walk_WNode (path : string) (info : os_FileInfo) (rderr : option error)
    (cs : list (string * wtree)) (walkFn : WalkFunc) :
  walk path (WNode info rderr cs) walkFn
  = if negb (fi_IsDir info) then walkFn path (walk_ok info)
    else
      err1 <- walkFn path (walk_arg_of info rderr) ;;
      if bool_decide (rderr <> None \/ err1 <> None) then Ret err1
      else walk_children walkFn cs.
Proof. reflexivity. Qed.

Section WalkInvariant.

Variable W : Type.
Variable handle : forall X : Type, osE X -> W -> X * W.
Variable walkFn : WalkFunc.

(** An invariant of the environment, the traces of calls of the function
    after which a walk may go on, and the traces and results of the call
    that ends a walk. *)
Variable I : W -> Prop.
Variable Q : list called -> Prop.
Variable F : list called -> option error -> Prop.

Hypothesis Q_nil : Q [].
Hypothesis Q_app : forall t1 t2, Q t1 -> Q t2 -> Q (t1 ++ t2).

Hypothesis walkFn_run : forall path a w,
  I w ->
  match run handle (walkFn path a) w with
  | (r, w', tr) => I w' /\ (Q tr \/ (F tr r /\ stops r))
  end.

(** A walk goes on quietly, or ends with the call that stops it. *)
Definition outcome (tr : list called) (r : option error) : Prop :=
  Q tr \/ exists t0 t1, tr = t0 ++ t1 /\ Q t0 /\ F t1 r /\ stops r.

Lemma outcome_of_call (tr : list called) (r : option error) :
  Q tr \/ (F tr r /\ stops r) -> outcome tr r.
Proof. intros [HQ|[HF Hs]]; [by left|]. right. by exists [], tr. Qed.

Lemma outcome_prepend (t1 t2 : list called) (r : option error) :
  Q t1 -> outcome t2 r -> outcome (t1 ++ t2) r.
Proof.
  intros H1 [H2|(t0 & t3 & -> & H0 & HF & Hs)]; [left; by apply Q_app|].
  right. exists (t1 ++ t0), t3. rewrite app_assoc. eauto.
Qed.

Lemma outcome_quiet (tr : list called) (r : option error) :
  outcome tr r -> ~ stops r -> Q tr.
Proof. intros [HQ|(? & ? & _ & _ & _ & Hs)] Hn; [done|]. by destruct Hn. Qed.

Lemma not_stops_None : ~ stops None.
Proof. by intros (e & ? & _). Qed.

Lemma not_stops_SkipDir (e : error) : is_SkipDir e = true -> ~ stops (Some e).
Proof. intros He (e' & [= <-] & He'). congruence. Qed.

Lemma walk_children_run (cs : list (string * wtree)) :
  Forall (fun c => forall path w, I w ->
            match run handle (walk path c.2 walkFn) w with
            | (r, w', tr) => I w' /\ outcome tr r
            end) cs ->
  forall w, I w ->
    match run handle (walk_children walkFn cs) w with
    | (r, w', tr) => I w' /\ outcome tr r
    end.
Proof.
  induction 1 as [|[filename c] cs Hc _ IH]; intros w Hw; [by split; [|left]|].
  cbn [walk_children]. fold (walk_children walkFn).
  destruct c as [err|fileInfo rderr gcs].
  - rewrite run_bind. pose proof (walkFn_run filename (walk_err None err) w Hw) as Hcb.
    destruct (run handle (walkFn filename (walk_err None err)) w) as [[r w1] t1].
    destruct Hcb as [Hw1 Hcb]. apply outcome_of_call in Hcb.
    assert (~ stops r ->
            match run handle (walk_children walkFn cs) w1 with
            | (r', w2, t2) => I w2 /\ outcome (t1 ++ t2) r'
            end) as Hgo.
    { intros Hn. specialize (IH w1 Hw1).
      destruct (run handle (walk_children walkFn cs) w1) as [[r' w2] t2].
      destruct IH as [Hw2 Ho]. split; [done|].
      apply outcome_prepend; [|done]. by apply (outcome_quiet t1 r). }
    destruct r as [e|].
    + destruct (is_SkipDir e) eqn:He.
      * specialize (Hgo (not_stops_SkipDir e He)).
        by destruct (run handle (walk_children walkFn cs) w1) as [[r' w2] t2].
      * cbn [run]. by rewrite app_nil_r.
    + specialize (Hgo not_stops_None).
      by destruct (run handle (walk_children walkFn cs) w1) as [[r' w2] t2].
  - rewrite run_bind. specialize (Hc filename w Hw). cbn [snd] in Hc.
    destruct (run handle (walk filename (WNode fileInfo rderr gcs) walkFn) w)
      as [[r w1] t1].
    destruct Hc as [Hw1 Hcb].
    assert (~ stops r ->
            match run handle (walk_children walkFn cs) w1 with
            | (r', w2, t2) => I w2 /\ outcome (t1 ++ t2) r'
            end) as Hgo.
    { intros Hn. specialize (IH w1 Hw1).
      destruct (run handle (walk_children walkFn cs) w1) as [[r' w2] t2].
      destruct IH as [Hw2 Ho]. split; [done|].
      apply outcome_prepend; [|done]. by apply (outcome_quiet t1 r). }
    destruct r as [e|].
    + destruct (negb (fi_IsDir fileInfo) || negb (is_SkipDir e)) eqn:Hret.
      * cbn [run]. by rewrite app_nil_r.
      * apply orb_false_iff in Hret as [_ He]. apply negb_false_iff in He.
        specialize (Hgo (not_stops_SkipDir e He)).
        by destruct (run handle (walk_children walkFn cs) w1) as [[r' w2] t2].
    + specialize (Hgo not_stops_None).
      by destruct (run handle (walk_children walkFn cs) w1) as [[r' w2] t2].
Qed.

Lemma walk_run (t : wtree) :
  forall path w, I w ->
    match run handle (walk path t walkFn) w with
    | (r, w', tr) => I w' /\ outcome tr r
    end.
Proof.
  induction t as [err|info rderr cs IH] using wtree_induction; intros path w Hw.
  - cbn [walk]. pose proof (walkFn_run path (walk_err None err) w Hw) as Hcb.
    destruct (run handle (walkFn path (walk_err None err)) w) as [[r w1] t1].
    destruct Hcb as [Hw1 Hcb]. split; [done|]. by apply outcome_of_call.
  - rewrite walk_WNode. destruct (negb (fi_IsDir info)).
    + pose proof (walkFn_run path (walk_ok info) w Hw) as Hcb.
      destruct (run handle (walkFn path (walk_ok info)) w) as [[r w1] t1].
      destruct Hcb as [Hw1 Hcb]. split; [done|]. by apply outcome_of_call.
    + rewrite run_bind.
      pose proof (walkFn_run path (walk_arg_of info rderr) w Hw) as Hcb.
      destruct (run handle (walkFn path (walk_arg_of info rderr)) w) as [[r w1] t1].
      destruct Hcb as [Hw1 Hcb]. apply outcome_of_call in Hcb.
      case_bool_decide as Hdec.
      * cbn [run]. by rewrite app_nil_r.
      * assert (r = None) as -> by (destruct r; [exfalso; apply Hdec; by right|done]).
        pose proof (walk_children_run cs IH w1 Hw1) as Hch.
        destruct (run handle (walk_children walkFn cs) w1) as [[r' w2] t2].
        destruct Hch as [Hw2 Ho]. split; [done|].
        apply outcome_prepend; [|done]. apply (outcome_quiet t1 None Hcb not_stops_None).
Qed.

(** [fs.Walk]: the read of the tree is a quiet call that keeps the
    invariant. *)
Hypothesis read_I : forall root w, I w -> I (handle _ (walk_read root) w).2.
Hypothesis read_Q : forall root t, Q [Called (walk_read root) t].

Lemma fs_Walk_run (root : string) (w : W) :
  I w ->
  match run handle (fs_Walk root walkFn) w with
  | (r, w', tr) => I w' /\ outcome tr r
  end.
Proof.
  intros Hw. unfold fs_Walk. cbn [bind call run].
  specialize (read_I root w Hw). specialize (read_Q root).
  destruct (handle _ (walk_read root) w) as [t w1]. cbn [snd] in read_I.
  rewrite run_bind. pose proof (walk_run t root w1 read_I) as Hwalk.
  destruct (run handle (walk root t walkFn) w1) as [[r w2] t2].
  destruct Hwalk as [Hw2 Ho].
  assert (outcome (Called (walk_read root) t :: t2) r) as Ho'
    by apply (outcome_prepend [Called (walk_read root) t] t2 r (read_Q t) Ho).
  destruct r as [e|]; [|cbn [run]; by rewrite app_nil_r].
  destruct (is_SkipDir e) eqn:He.
  - destruct e; try done. cbn [run]. rewrite app_nil_r. split; [done|]. left.
    apply (outcome_quiet _ _ Ho'). by apply not_stops_SkipDir.
  - assert (run handle (match Some e with
                        | Some SkipDir => Ret None
                        | _ => Ret (Some e)
                        end) w2 = (Some e, w2, [])) as -> by by destruct e.
    by rewrite app_nil_r.
Qed.

End WalkInvariant.

(* ===================================================================== *)
(** * List: the function handed to the walk *)
(* ===================================================================== *)

Lemma List_unfold `{Externals} (b : Pcloud.Pcloud) (ctx : Context) (t : FileType)
    (fn : FileInfo -> prog (option error)) :
  Pcloud.List b ctx t fn
  = fs_Walk (Basedir (Pcloud.Layout_ b) t).1
      (list_callback ctx (Basedir (Pcloud.Layout_ b) t).1 (Basedir (Pcloud.Layout_ b) t).2 fn).
Proof. unfold Pcloud.List. by destruct (Basedir (Pcloud.Layout_ b) t). Qed.

(** A directory is not a file for [isFile]: the test [fi.IsDir() &&
    !subdirs] of [List] comes after [!isFile(fi)] and is never true. *)
Lemma isFile_not_dir (fi : os_FileInfo) : Pcloud.isFile fi = true -> fi_IsDir fi = false.
Proof.
  unfold Pcloud.isFile, fi_IsDir. intros Hf%Z.eqb_eq.
  apply negb_false_iff, Z.eqb_eq.
  assert (ModeDir = Z.land (Z.lor ModeType ModeCharDevice) ModeDir) as ->
    by (vm_compute; reflexivity).
  by rewrite Z.land_assoc, Hf, Z.land_0_l.
Qed.

Section CallbackRun.

Context `{Externals}.
Variable W : Type.
Variable handle : forall X : Type, osE X -> W -> X * W.

(** The runs of [check_visit] with the visitor of the environment. *)
Lemma check_visit_run (ctx : Context) (rfi : FileInfo) (w : W) :
  run handle (check_visit ctx visitor rfi) w
  = let '(c, w1) := handle _ (ctx_Err ctx) w in
    match c with
    | Some _ =>
        let '(c', w2) := handle _ (ctx_Err ctx) w1 in
        (ContextErr <$> c', w2, [Called (ctx_Err ctx) c; Called (ctx_Err ctx) c'])
    | None =>
        let '(v, w2) := handle _ (visit rfi) w1 in
        match v with
        | Some e => (Some e, w2, [Called (ctx_Err ctx) c; Called (visit rfi) v])
        | None =>
            let '(c', w3) := handle _ (ctx_Err ctx) w2 in
            (ContextErr <$> c', w3,
             [Called (ctx_Err ctx) c; Called (visit rfi) v; Called (ctx_Err ctx) c'])
        end
    end.
Proof.
  unfold check_visit, visitor. cbn [bind call run].
  destruct (handle _ (ctx_Err ctx) w) as [[ce|] w1]; cbn [bind call run].
  - by destruct (handle _ (ctx_Err ctx) w1) as [c' w2].
  - destruct (handle _ (visit rfi) w1) as [[e|] w2]; cbn [bind call run]; [done|].
    by destruct (handle _ (ctx_Err ctx) w2) as [c' w3].
Qed.

(** The function of [List] makes no call, or runs [check_visit]. *)
Lemma list_callback_run (ctx : Context) (basedir : string) (subdirs : bool)
    (path : string) (a : walk_arg) (w : W) :
  (exists r, run handle (list_callback ctx basedir subdirs visitor path a) w = (r, w, []))
  \/ (exists rfi, run handle (list_callback ctx basedir subdirs visitor path a) w
                  = run handle (check_visit ctx visitor rfi) w).
Proof.
  unfold list_callback. destruct a as [fi|fi err]; [|left; by eexists].
  destruct (decide (path = basedir)); [left; by eexists|].
  destruct (negb (Pcloud.isFile fi)); [left; by eexists|].
  destruct (fi_IsDir fi && negb subdirs); [left; by eexists|].
  right. by eexists.
Qed.

End CallbackRun.

(* ===================================================================== *)
(** * List stops at the first error *)
(* ===================================================================== *)

Lemma ok_trace_quiet (os os' : list obs) (r : option error) :
  Forall quiet_obs os -> ok_trace os' r -> ok_trace (os ++ os') r.
Proof.
  induction 1 as [|o os Ho _ IH]; intros Hok; [done|].
  destruct o as [fi [e|]|c [ce|]|p|]; cbn in *; try by apply IH.
  - rewrite Ho. by apply IH.
  - done.
Qed.

Lemma ok_trace_visit (pre post : list obs) (fi : FileInfo) (e : error) (r : option error) :
  ok_trace (pre ++ obs_visit fi (Some e) :: post) r ->
  is_SkipDir e = false ->
  post = [] /\ r = Some e.
Proof.
  intros Hok He. induction pre as [|o pre IH]; cbn in Hok.
  - by rewrite He in Hok.
  - destruct o as [fi' [e'|]|c [ce|]|p|]; try by apply IH.
    + destruct (is_SkipDir e'); [by apply IH|].
      destruct Hok as [Hnil _]. by destruct pre.
    + destruct Hok as [_ [Hnil|Hone]]; [by destruct pre|].
      by destruct pre as [|? [|? ?]].
Qed.

Lemma ok_trace_ctx (pre post : list obs) (c : Context) (ce : ctx_error)
    (r : option error) :
  ok_trace (pre ++ obs_ctx c (Some ce) :: post) r ->
  r = Some (ContextErr ce) /\ forall fi ans, obs_visit fi ans ∉ post.
Proof.
  intros Hok. induction pre as [|o pre IH]; cbn in Hok.
  - destruct Hok as [-> [-> | ->]]; (split; [done|]); intros fi ans Hin.
    + by apply elem_of_nil in Hin.
    + by apply list_elem_of_singleton in Hin.
  - destruct o as [fi' [e'|]|c' [ce'|]|p|]; try by apply IH.
    + destruct (is_SkipDir e'); [by apply IH|].
      destruct Hok as [Hnil _]. by destruct pre.
    + destruct Hok as [-> [Hnil|Hone]]; [by destruct pre|].
      destruct pre as [|? [|? ?]]; try done. cbn in Hone.
      injection Hone as -> -> ->. split; [done|]. intros fi ans Hin.
      by apply elem_of_nil in Hin.
Qed.

Lemma is_SkipDir_false (e : error) : e <> SkipDir -> is_SkipDir e = false.
Proof. by destruct e. Qed.

Section ListStops.

Context `{Externals}.
Variable W : Type.
Variable handle : forall X : Type, osE X -> W -> X * W.
Variable ctx : Context.

(** The contract of [Context.Err]: once it has returned an error, the
    next call returns the same error. *)
Hypothesis Err_again : forall w ce,
  (handle _ (ctx_Err ctx) w).1 = Some ce ->
  (handle _ (ctx_Err ctx) (handle _ (ctx_Err ctx) w).2).1 = Some ce.

Lemma list_callback_stops (basedir : string) (subdirs : bool)
    (path : string) (a : walk_arg) (w : W) :
  True ->
  match run handle (list_callback ctx basedir subdirs visitor path a) w with
  | (r, w', tr) =>
      True /\ (Forall quiet_obs (observe <$> tr)
               \/ (ok_trace (observe <$> tr) r /\ stops r))
  end.
Proof.
  intros _.
  destruct (list_callback_run W handle ctx basedir subdirs path a w)
    as [[r ->]|[rfi ->]]; [by split; [|left]|].
  rewrite check_visit_run. specialize (Err_again w).
  destruct (handle _ (ctx_Err ctx) w) as [[ce|] w1]; cbn [fst snd] in Err_again.
  - specialize (Err_again ce eq_refl).
    destruct (handle _ (ctx_Err ctx) w1) as [c' w2]. cbn [fst] in Err_again. subst c'.
    split; [done|]. right. split; [cbn; auto|]. by eexists.
  - destruct (handle _ (visit rfi) w1) as [[e|] w2].
    + split; [done|]. destruct (is_SkipDir e) eqn:He.
      * left. cbn. by repeat constructor.
      * right. split; [cbn; by rewrite He|]. by eexists.
    + destruct (handle _ (ctx_Err ctx) w2) as [[ce|] w3]; (split; [done|]).
      * right. split; [cbn; auto|]. by eexists.
      * left. cbn. by repeat constructor.
Qed.

Lemma List_ok_trace (b : Pcloud.Pcloud) (t : FileType) (w : W) :
  ok_trace (observe <$> (run handle (Pcloud.List b ctx t visitor) w).2)
           (run handle (Pcloud.List b ctx t visitor) w).1.1.
Proof.
  rewrite List_unfold.
  pose proof (fs_Walk_run W handle
                (list_callback ctx (Basedir (Pcloud.Layout_ b) t).1
                               (Basedir (Pcloud.Layout_ b) t).2 visitor)
                (fun _ => True)
                (fun tr => Forall quiet_obs (observe <$> tr))
                (fun tr r => ok_trace (observe <$> tr) r)) as Hwalk.
  assert (forall root w0, (fun _ : W => True) w0 ->
            match run handle
                    (fs_Walk root
                       (list_callback ctx (Basedir (Pcloud.Layout_ b) t).1
                                      (Basedir (Pcloud.Layout_ b) t).2 visitor)) w0 with
            | (r, w', tr) =>
                True /\ outcome (fun tr => Forall quiet_obs (observe <$> tr))
                                (fun tr r => ok_trace (observe <$> tr) r) tr r
            end) as Hrun.
  { apply Hwalk.
    - by constructor.
    - intros t1 t2 H1 H2. rewrite fmap_app. by apply Forall_app_2.
    - apply list_callback_stops.
    - done.
    - intros root t0. by repeat constructor. }
  clear Hwalk. specialize (Hrun (Basedir (Pcloud.Layout_ b) t).1 w Logic.I).
  rename Hrun into Hwalk.
  destruct (run handle (fs_Walk _ _) w) as [[r w'] tr].
  destruct Hwalk as [_ [HQ|(t0 & t1 & -> & HQ & HF & _)]]; cbn [fst snd].
  - rewrite <- (app_nil_r (observe <$> tr)). by apply ok_trace_quiet.
  - rewrite fmap_app. by apply ok_trace_quiet.
Qed.


End ListStops.

(* ===================================================================== *)
(** * Cancellation *)
(* ===================================================================== *)

Lemma no_ctx_bind {A B : Type} (p : prog A) (k : A -> prog B) :
  no_ctx p -> (forall a, no_ctx (k a)) -> no_ctx (bind p k).
Proof.
  intros Hp Hk. induction Hp as [a|X e c He _ IH]; cbn [bind]; [apply Hk|].
  by constructor.
Qed.

Lemma no_ctx_call {X : Type} (e : osE X) : is_ctx_call e = false -> no_ctx (call e).
Proof. intros He. constructor; [done|]. intros x. constructor. Qed.

Lemma no_ctx_run {R : Type} (W : Type) (handle : forall X : Type, osE X -> W -> X * W)
    (p : prog R) (w : W) :
  no_ctx p -> ctx_checks (run handle p w).2 = [].
Proof.
  intros Hp. revert w. induction Hp as [r|X e k He _ IH]; intros w; [done|].
  cbn [run]. destruct (handle X e w) as [x w1]. specialize (IH x w1).
  destruct (run handle (k x) w1) as [[r w2] tr]. cbn [snd] in *.
  unfold ctx_checks in *. cbn [omap list_omap]. rewrite IH. by destruct e.
Qed.

Ltac no_ctx_step :=
  first
    [ apply no_ctx_Ret
    | apply no_ctx_call; reflexivity
    | apply no_ctx_bind; [|intros ?]
    | match goal with
      | |- no_ctx (match ?x with _ => _ end) => destruct x
      end ].

Section Cancellation.

Context `{Externals}.

(** [Save], [Load], [Stat], [Test] and [Remove] never ask their context
    for its error. *)
Lemma handle_ops_no_ctx (b : Pcloud.Pcloud) (ctx : Context) (h : Handle) :
  (forall rd, no_ctx (Pcloud.Save b ctx h rd))
  /\ (forall length offset, no_ctx (Pcloud.Load b ctx h length offset))
  /\ no_ctx (Pcloud.Stat b ctx h)
  /\ no_ctx (Pcloud.Test b ctx h)
  /\ no_ctx (Pcloud.Remove b ctx h).
Proof.
  unfold Pcloud.Save, Pcloud.Load, Pcloud.Stat, Pcloud.Test, Pcloud.Remove.
  repeat split; intros; repeat no_ctx_step.
Qed.

Variable W : Type.
Variable handle : forall X : Type, osE X -> W -> X * W.
Variable ctx : Context.
Variable ce : ctx_error.

(** The context is cancelled in a state of the environment. *)
Definition cancelled (w : W) : Prop := (handle _ (ctx_Err ctx) w).1 = Some ce.

(** A cancelled context stays cancelled, whatever is called. *)
Hypothesis stays_cancelled : forall (X : Type) (e : osE X) (w : W),
  cancelled w -> cancelled (handle X e w).2.

Lemma list_callback_cancelled (basedir : string) (subdirs : bool)
    (path : string) (a : walk_arg) (w : W) :
  cancelled w ->
  match run handle (list_callback ctx basedir subdirs visitor path a) w with
  | (r, w', tr) =>
      cancelled w'
      /\ ((visits tr = [] /\ ctx_checks tr = [])
          \/ ((visits tr = [] /\ r = Some (ContextErr ce)) /\ stops r))
  end.
Proof.
  intros Hw.
  destruct (list_callback_run W handle ctx basedir subdirs path a w)
    as [[r ->]|[rfi ->]]; [by split; [|left]|].
  rewrite check_visit_run.
  pose proof (stays_cancelled _ (ctx_Err ctx) w Hw) as Hw1. unfold cancelled in Hw, Hw1.
  destruct (handle _ (ctx_Err ctx) w) as [c w1]. cbn [fst snd] in Hw, Hw1. subst c.
  pose proof (stays_cancelled _ (ctx_Err ctx) w1 Hw1) as Hw2. unfold cancelled in Hw2.
  destruct (handle _ (ctx_Err ctx) w1) as [c' w2]. cbn [fst snd] in Hw1, Hw2. subst c'.
  split; [done|]. right. split; [done|]. by eexists.
Qed.

Lemma List_cancelled (b : Pcloud.Pcloud) (t : FileType) (w : W) :
  cancelled w ->
  visits (run handle (Pcloud.List b ctx t visitor) w).2 = []
  /\ (ctx_checks (run handle (Pcloud.List b ctx t visitor) w).2 <> [] ->
      (run handle (Pcloud.List b ctx t visitor) w).1.1 = Some (ContextErr ce)).
Proof.
  intros Hw. rewrite List_unfold.
  pose proof (fs_Walk_run W handle
                (list_callback ctx (Basedir (Pcloud.Layout_ b) t).1
                               (Basedir (Pcloud.Layout_ b) t).2 visitor)
                cancelled
                (fun tr => visits tr = [] /\ ctx_checks tr = [])
                (fun tr r => visits tr = [] /\ r = Some (ContextErr ce))) as Hwalk.
  assert (forall root w0, cancelled w0 ->
            match run handle
                    (fs_Walk root
                       (list_callback ctx (Basedir (Pcloud.Layout_ b) t).1
                                      (Basedir (Pcloud.Layout_ b) t).2 visitor)) w0 with
            | (r, w', tr) =>
                cancelled w'
                /\ outcome (fun tr => visits tr = [] /\ ctx_checks tr = [])
                           (fun tr r => visits tr = [] /\ r = Some (ContextErr ce)) tr r
            end) as Hrun.
  { apply Hwalk.
    - done.
    - intros t1 t2 [Hv1 Hc1] [Hv2 Hc2].
      by rewrite visits_app, ctx_checks_app, Hv1, Hv2, Hc1, Hc2.
    - apply list_callback_cancelled.
    - intros root w0. apply stays_cancelled.
    - done. }
  clear Hwalk. specialize (Hrun (Basedir (Pcloud.Layout_ b) t).1 w Hw).
  destruct (run handle (fs_Walk _ _) w) as [[r w'] tr].
  destruct Hrun as [_ [[Hv Hc]|(t0 & t1 & -> & [Hv0 Hc0] & [Hv1 ->] & _)]]; cbn [fst snd].
  - by split.
  - split; [by rewrite visits_app, Hv0, Hv1|done].
Qed.


End Cancellation.

(* ===================================================================== *)
(** * The in-memory environment: contexts *)
(* ===================================================================== *)

(** In the in-memory environment a cancelled context stays cancelled. *)
Lemma os_handle_keeps_ctx (X : Type) (e : osE X) (w : world) (c : Context) (ce : ctx_error) :
  w_ctx w !! c = Some ce -> w_ctx (os_handle e w).2 !! c = Some ce.
Proof.
  intros Hc. destruct e; cbn [os_handle snd]; try done.
  - unfold do_OpenFile, open_new. repeat case_match; done.
  - unfold do_OpenFile, open_new. repeat case_match; done.
  - unfold do_Stat. repeat case_match; done.
  - unfold do_Stat. repeat case_match; done.
  - unfold do_MkdirAll. repeat case_match; done.
  - unfold do_MkdirAll. repeat case_match; done.
  - unfold do_Chmod. repeat case_match; done.
  - unfold do_Remove. repeat case_match; done.
  - unfold do_Copy. repeat case_match; done.
  - unfold do_Sync. repeat case_match; done.
  - unfold do_Close. repeat case_match; done.
  - unfold do_Seek. repeat case_match; done.
  - unfold do_Chmod. repeat case_match; done.
  - unfold do_visit, cancel. repeat case_match; try done; cbn;
      (rewrite lookup_insert_ne; [done|]); intros ->; congruence.
Qed.

Lemma os_handle_Err_again (ctx : Context) (w : world) (ce : ctx_error) :
  (os_handle (ctx_Err ctx) w).1 = Some ce ->
  (os_handle (ctx_Err ctx) (os_handle (ctx_Err ctx) w).2).1 = Some ce.
Proof. done. Qed.

Lemma os_handle_stays_cancelled (ctx : Context) (ce : ctx_error)
    (X : Type) (e : osE X) (w : world) :
  cancelled world (@os_handle) ctx ce w ->
  cancelled world (@os_handle) ctx ce (os_handle e w).2.
Proof. unfold cancelled. cbn [os_handle fst]. apply os_handle_keeps_ctx. Qed.

(* ===================================================================== *)
(** * The operations on example inputs *)
(* ===================================================================== *)

Section Examples.

Existing Instance example_externals.
Import Example.



(** C2 at a handle that is not valid (a data file without a name):
    [Valid] refuses the handle, yet [Test] asks the file system about the
    data directory and answers true, and [Remove] changes the mode of
    the data directory and removes it. *)
Theorem invalid_handle_reaches_storage :
  Valid h_noname = Some (errors_New "invalid Name")
  /\ run os_handle (Pcloud.Test be ctx_live h_noname) w_fresh
     = ((true, None), w_fresh,
        [Called (fs_Stat "/repo/data") (Ok {| fi_Size := 4096; fi_Mode := 2147484096 |})])
  /\ (run os_handle (Pcloud.Remove be ctx_live h_noname) w_fresh).1.1 = None
  /\ (run os_handle (Pcloud.Remove be ctx_live h_noname) w_fresh).2
     = [Called (fs_Chmod "/repo/data" 438) None; Called (fs_Remove "/repo/data") None]
  /\ w_nodes w_fresh !! "/repo/data" = Some (Directory 448)
  /\ w_nodes (run os_handle (Pcloud.Remove be ctx_live h_noname) w_fresh).1.2
       !! "/repo/data" = None.
Proof. repeat split; vm_compute; reflexivity. Qed.


(** [Create] on the repository that has a config. *)
Lemma Create_existing_config_witness :
  exists err tr,
    run os_handle (Pcloud.Create cfg tt) w_stored = (Err err, w_stored, tr)
    /\ mkdirs_of tr = [].
Proof.
  destruct (Create_existing_config cfg tt) as (_ & _ & Hmem).
  apply (Hmem w_stored (example_layout "/repo") (RegularFile 384 [Byte.x7b; Byte.x7d]));
    vm_compute; reflexivity.
Defined.

(** [Save] on a handle whose file is stored. *)
Lemma Save_never_overwrites_witness :
  Valid h_blob = None
  /\ w_nodes w_stored !! "/repo/data/abc" = Some (RegularFile 384 hi)
  /\ (exists err, (run os_handle (Pcloud.Save be ctx_live h_blob rd) w_stored).1.1
                  = Some err)
  /\ w_nodes (run os_handle (Pcloud.Save be ctx_live h_blob rd) w_stored).1.2
       !! "/repo/data/abc" = Some (RegularFile 384 hi).
Proof.
  assert (Valid h_blob = None) as Hv by reflexivity.
  assert (w_nodes w_stored !! "/repo/data/abc" = Some (RegularFile 384 hi)) as Hn
    by (vm_compute; reflexivity).
  split; [exact Hv|]. split; [exact Hn|].
  destruct (Save_never_overwrites be ctx_live h_blob rd w_stored Hv) as [Hexists _].
  exact (Hexists (RegularFile 384 hi) Hn).
Defined.



(** [Stat] on the stored data file, and on a handle without a name. *)
Lemma Stat_size_and_name_witness :
  (run os_handle (Pcloud.Stat be ctx_live h_blob) w_stored).1.1
  = ({| Size := 3; FileInfo_Name := "abc" |}, None)
  /\ (run os_handle (Pcloud.Stat be ctx_live h_noname) w_stored).1.1
     = (FileInfo_zero, Some (errors_New "invalid Name")).
Proof.
  destruct (Stat_size_and_name be ctx_live h_blob w_stored) as [Hstored _].
  destruct (Stat_size_and_name be ctx_live h_noname w_stored) as (_ & Hinvalid & _).
  split.
  - apply (Hstored 384 hi); vm_compute; reflexivity.
  - apply Hinvalid. reflexivity.
Defined.

(** [Load] of one byte at offset 1 of the stored data file. *)
Lemma Load_yields_range_witness :
  Valid h_blob = None
  /\ exists rc w' tr,
      run os_handle (Pcloud.Load be ctx_live h_blob 1 1) w_stored = (Ok rc, w', tr)
      /\ ReadAll w' rc = Ok [Byte.x69].
Proof.
  assert (Valid h_blob = None) as Hv by reflexivity. split; [exact Hv|].
  destruct (Load_yields_range be ctx_live h_blob 1 1 w_stored Hv) as [_ Hload].
  destruct (Hload ltac:(lia) 384 hi) as (rc & w' & tr & Hrun & Hlen & _);
    [vm_compute; reflexivity..|].
  exists rc, w', tr. split; [exact Hrun|]. apply Hlen. lia.
Defined.

End Examples.

(* ===================================================================== *)
(** * config.go: the format ParseConfig accepts *)
(* ===================================================================== *)

Lemma HasPrefix_colon (a : ascii) (s : string) :
  HasPrefix (String a s) ":" = Ascii.eqb ":" a.
Proof.
  change (HasPrefix (String a s) ":") with (if Ascii.eqb ":" a then true else false).
  by destruct (Ascii.eqb ":" a).
Qed.

Lemma index_of_colon_None (s : string) :
  index_of s ":" = None <-> count_byte ":" s = O.
Proof.
  induction s as [|a s IH]; [done|].
  cbn [index_of count_byte]. rewrite HasPrefix_colon.
  destruct (Ascii.eqb ":" a); [done|].
  destruct (index_of s ":"); cbn; [|tauto].
  split; [done|]. intros Hc. by apply IH in Hc.
Qed.

Lemma index_of_colon_Some (s : string) (m : nat) :
  index_of s ":" = Some m ->
  count_byte ":" (slice_to s m) = O
  /\ count_byte ":" s = S (count_byte ":" (slice_from s (m + 1))).
Proof.
  revert m. induction s as [|a s IH]; intros m; [done|].
  cbn [index_of count_byte]. rewrite HasPrefix_colon.
  destruct (Ascii.eqb ":" a) eqn:Ha.
  - intros [= <-]. done.
  - destruct (index_of s ":") as [k|]; [|done]. intros [= <-].
    destruct (IH k eq_refl) as [H1 H2]. cbn [slice_to slice_from Nat.add count_byte].
    by rewrite Ha.
Qed.

Lemma index_of_colon_app (u r : string) :
  count_byte ":" u = O -> index_of (u +:+ ":" +:+ r) ":" = Some (String.length u).
Proof.
  induction u as [|a u IH]; [done|].
  rewrite string_app_cons. cbn [index_of count_byte String.length].
  rewrite HasPrefix_colon. destruct (Ascii.eqb ":" a); [done|].
  intros Hc. by rewrite (IH Hc).
Qed.

Lemma slice_to_app (u r : string) : slice_to (u +:+ r) (String.length u) = u.
Proof.
  induction u as [|a u IH]; [done|].
  rewrite string_app_cons. cbn [slice_to String.length]. by rewrite IH.
Qed.

Lemma slice_from_app (u r : string) : slice_from (u +:+ r) (String.length u) = r.
Proof. induction u as [|a u IH]; [done|]. exact IH. Qed.

Lemma count_byte_le_length (c : ascii) (s : string) :
  (count_byte c s <= String.length s)%nat.
Proof.
  induction s as [|a s IH]; [done|]. cbn. destruct (Ascii.eqb c a); lia.
Qed.

(** [split_loop] cuts at every colon, up to its bound. *)
Lemma split_loop_colon_length (n : nat) (s : string) :
  length (split_loop n s ":") = S (Nat.min n (count_byte ":" s)).
Proof.
  revert s. induction n as [|n IH]; intros s; [done|].
  cbn [split_loop]. unfold Index.
  destruct (index_of s ":") as [m|] eqn:Hm.
  - destruct (Z.ltb_spec (Z.of_nat m) 0) as [?|_]; [lia|].
    rewrite Nat2Z.id. cbn [length String.length]. rewrite IH.
    destruct (index_of_colon_Some s m Hm) as [_ ->]. done.
  - apply index_of_colon_None in Hm. rewrite Hm. cbn. lia.
Qed.

(** The first cut of [split_loop] on a text that starts with a field
    without a colon. *)
Lemma split_loop_colon_cut (n : nat) (u r : string) :
  count_byte ":" u = O ->
  split_loop (S n) (u +:+ ":" +:+ r) ":" = u :: split_loop n r ":".
Proof.
  intros Hu. cbn [split_loop]. unfold Index. rewrite (index_of_colon_app u r Hu).
  destruct (Z.ltb_spec (Z.of_nat (String.length u)) 0) as [?|_]; [lia|].
  rewrite Nat2Z.id, slice_to_app. cbn [String.length].
  rewrite slice_from_add, slice_from_app. done.
Qed.

(** X1: the first [ParseConfig] reads back what is written as
    pcloud:UserName:Password:Path, for a user name and a password without
    a colon and any path (colons in the path are kept); all other fields
    have the values of [NewConfig]. *)
Theorem ParseConfig_reads_fields (user password path : string) :
  count_byte ":" user = O ->
  count_byte ":" password = O ->
  Variant1.ParseConfig ("pcloud:" +:+ user +:+ ":" +:+ password +:+ ":" +:+ path)
  = Ok (config_of user password path).
Proof.
  intros Hu Hp. unfold Variant1.ParseConfig.
  set (rest := user +:+ ":" +:+ password +:+ ":" +:+ path).
  change (HasPrefix ("pcloud:" +:+ rest) "pcloud:") with true. cbn [negb].
  change (slice_from ("pcloud:" +:+ rest) 7) with rest.
  assert (2 <= String.length rest)%nat as Hlen.
  { subst rest. rewrite !string_app_length. cbn [String.length]. lia. }
  unfold SplitN.
  replace (Nat.min 3 (S (String.length rest)) - 1)%nat with 2%nat by lia.
  subst rest. rewrite (split_loop_colon_cut 1 user _ Hu).
  rewrite (split_loop_colon_cut 0 password _ Hp). done.
Qed.

(** The round trip on an example with colons in the path. *)
Lemma ParseConfig_reads_fields_witness :
  Variant1.ParseConfig "pcloud:user:secret:/a:b"
  = Ok (config_of "user" "secret" "/a:b").
Proof.
  exact (ParseConfig_reads_fields "user" "secret" "/a:b" eq_refl eq_refl).
Defined.

(** Every field that [split_loop] cuts off is free of colons; only the
    remainder may hold some. *)
Lemma split_loop_colon_fields (n : nat) (s : string) (i : nat) (d : string) :
  split_loop n s ":" !! i = Some d ->
  (S i < length (split_loop n s ":"))%nat ->
  count_byte ":" d = O.
Proof.
  revert s i. induction n as [|n IH]; intros s i; [cbn; intros _ ?; lia|].
  cbn [split_loop]. unfold Index.
  destruct (index_of s ":") as [m|] eqn:Hm; [|cbn; intros _ ?; lia].
  destruct (Z.ltb_spec (Z.of_nat m) 0) as [?|_]; [lia|]. rewrite Nat2Z.id.
  destruct i as [|i]; cbn [lookup list_lookup length].
  - intros [= <-] _. by destruct (index_of_colon_Some s m Hm).
  - intros Hd Hlen. apply (IH _ i Hd). lia.
Qed.

(** X2: in a configuration that the first [ParseConfig] returns, neither
    the user name nor the password contains a colon, the input is
    pcloud:UserName:Password:Path, and the other fields are those of
    [NewConfig]: the configuration is [config_of] of its three fields. *)
Theorem ParseConfig_fields (s : string) (c : Variant1.Config) :
  Variant1.ParseConfig s = Ok c ->
  count_byte ":" (Variant1.UserName c) = O
  /\ count_byte ":" (Variant1.Password c) = O
  /\ c = config_of (Variant1.UserName c) (Variant1.Password c) (Variant1.Path c)
  /\ s = "pcloud:" +:+ Variant1.UserName c +:+ ":" +:+ Variant1.Password c
           +:+ ":" +:+ Variant1.Path c.
Proof.
  intros Hok. pose proof (ParseConfig1_inv s c Hok) as Hs.
  revert Hok. unfold Variant1.ParseConfig.
  destruct (HasPrefix s "pcloud:"); [|done]. cbn [negb]. unfold SplitN.
  set (n := (Nat.min 3 (S (String.length (slice_from s 7))) - 1)%nat).
  pose proof (split_loop_colon_fields n (slice_from s 7)) as Hfields.
  destruct (split_loop n (slice_from s 7) ":") as [|d0 [|d1 [|d2 tl]]]; try done.
  intros [= <-]. cbn [Variant1.UserName Variant1.Password Variant1.Path].
  split; [apply (Hfields 0%nat d0 eq_refl); cbn; lia|].
  split; [apply (Hfields 1%nat d1 eq_refl); cbn; lia|].
  split; [reflexivity|exact Hs].
Qed.

(** A configuration the first [ParseConfig] returns, taken apart. *)
Lemma ParseConfig_fields_witness :
  Variant1.ParseConfig "pcloud:user:secret:/a:b" = Ok (config_of "user" "secret" "/a:b")
  /\ count_byte ":" "user" = O /\ count_byte ":" "secret" = O.
Proof.
  assert (Variant1.ParseConfig "pcloud:user:secret:/a:b"
          = Ok (config_of "user" "secret" "/a:b")) as Hok by reflexivity.
  destruct (ParseConfig_fields _ _ Hok) as (Hu & Hp & _).
  split; [exact Hok|]. split; [exact Hu|exact Hp].
Defined.

(** X3: the first [ParseConfig] accepts exactly the inputs that start with
    pcloud: and have at least two colons after that prefix; everything
    else is an error. *)
Theorem ParseConfig_accepts_iff (s : string) :
  (exists c, Variant1.ParseConfig s = Ok c)
  <-> HasPrefix s "pcloud:" = true /\ (2 <= count_byte ":" (slice_from s 7))%nat.
Proof.
  unfold Variant1.ParseConfig.
  destruct (HasPrefix s "pcloud:"); cbn [negb]; [|split; [by intros [c ?]|by intros [? _]]].
  set (rest := slice_from s 7). unfold SplitN.
  set (n := (Nat.min 3 (S (String.length rest)) - 1)%nat).
  pose proof (split_loop_colon_length n rest) as Hlen.
  pose proof (count_byte_le_length ":" rest) as Hle.
  destruct (split_loop n rest ":") as [|d0 [|d1 [|d2 tl]]]; cbn [length] in Hlen;
    (split; [intros [c Hc]|intros [_ Hcount]]); try done; try lia; try by eexists.
Qed.

(** X4: the second [ParseConfig] accepts exactly the inputs that start
    with pcloud: and returns as Path the input without its first six
    bytes: the Path starts with the colon of the prefix, and the word
    pcloud followed by the Path is the input. *)
Theorem ParseConfig2_Path (s : string) :
  ((exists c, Variant2.ParseConfig s = Ok c) <-> HasPrefix s "pcloud:" = true)
  /\ forall c, Variant2.ParseConfig s = Ok c ->
               s = "pcloud" +:+ Variant2.Path c
               /\ exists rest, Variant2.Path c = ":" +:+ rest.
Proof.
  split.
  - unfold Variant2.ParseConfig. destruct (HasPrefix s "pcloud:"); cbn [negb].
    + split; [done|]. intros _. by eexists.
    + split; [by intros [c ?]|done].
  - intros c Hc. destruct (ParseConfig2_inv s c Hc) as (rest & -> & ->).
    split; [done|by exists rest].
Qed.

(* ===================================================================== *)
(** * layout_pcloud.go: directories *)
(* ===================================================================== *)

(** X5: the base directory of every file type that has an entry in the
    table of layout paths is one of the directories that [Paths] returns
    (so [Create], which makes the directories of [Paths], makes every
    directory that [List] walks). *)
Theorem Basedir_in_Paths (paths : list (FileType * string))
    (l : layout_pcloud.PcloudLayout) (t : FileType) (dir : string) :
  (t, dir) ∈ paths ->
  (layout_pcloud.Basedir paths l t).1 ∈ layout_pcloud.Paths paths l.
Proof.
  intros Hin. unfold layout_pcloud.Basedir, layout_pcloud.Paths,
    layout_pcloud.paths_lookup, layout_pcloud.pcloudLayoutPaths. cbn [fst].
  destruct (list_find (fun kv : FileType * string => kv.1 = t) paths)
    as [[i kv]|] eqn:Hfind.
  - apply list_find_Some in Hfind as (Hi & _ & _).
    apply list_elem_of_fmap. exists kv. split; [done|].
    by apply list_elem_of_lookup_2 in Hi.
  - apply list_find_None in Hfind. rewrite Forall_forall in Hfind.
    by destruct (Hfind (t, dir) Hin).
Qed.

(** The base directory of the data files in the example layout. *)
Lemma Basedir_in_Paths_witness :
  let l := {| layout_pcloud.URL := ""; layout_pcloud.Path := "/repo";
              layout_pcloud.Join := example_Join |} in
  (layout_pcloud.Basedir example_paths l DataFile).1 = "/repo/data"
  /\ "/repo/data" ∈ layout_pcloud.Paths example_paths l.
Proof.
  intros l. split; [reflexivity|].
  apply (Basedir_in_Paths example_paths l DataFile "data").
  apply list_elem_of_here.
Defined.

(* ===================================================================== *)
(** * Create: the directories *)
(* ===================================================================== *)

Section CreateDirs.

Context `{Externals}.

Lemma Create_unfold (cfg : Variant1.Config) (rt : RoundTripper) :
  Pcloud.Create cfg rt
  = (r <- call (backend_ParseLayout (Variant1.Layout cfg) Pcloud.defaultLayout
                  (Variant1.Path cfg)) ;;
     match r with
     | Err err => Ret (Err err)
     | Ok l =>
         let be := {| Pcloud.Config := cfg; Pcloud.Layout_ := l |} in
         st <- call (fs_Lstat (Filename l config_handle)) ;;
         match st with
         | Ok _ => Ret (Err (errors_New "config file already exists"))
         | Err _ => create_dirs be (Paths l)
         end
     end).
Proof. reflexivity. Qed.

Lemma mkdirs_of_MkdirAll (d : string) (perm : FileMode) (x : option error)
    (tr : list called) :
  mkdirs_of (Called (fs_MkdirAll d perm) x :: tr) = d :: mkdirs_of tr.
Proof. reflexivity. Qed.

(** The loop of [Create] in every environment: the directories asked for
    are the first of the list, in order; all of them when the result is
    the backend, and up to the one that failed otherwise. *)
Lemma create_dirs_run (W : Type) (handle : forall X : Type, osE X -> W -> X * W)
    (be : Pcloud.Pcloud) (ds : list string) (w : W) :
  match run handle (create_dirs be ds) w with
  | (Ok be', _, tr) => be' = be /\ mkdirs_of tr = ds /\ length tr = length ds
  | (Err err, _, tr) =>
      exists e done d rest,
        err = errors_Wrap e "MkdirAll"
        /\ ds = done ++ d :: rest /\ mkdirs_of tr = done ++ [d]
  end.
Proof.
  revert w. induction ds as [|d ds IH]; intros w; [done|].
  cbn [create_dirs bind call run]. fold (create_dirs be).
  destruct (handle _ (fs_MkdirAll d Modes_Dir) w) as [[e|] w1].
  - cbn [run]. by exists e, [], d, ds.
  - specialize (IH w1). destruct (run handle (create_dirs be ds) w1) as [[[be'|err] w2] tr].
    + destruct IH as (-> & <- & Hlen). rewrite mkdirs_of_MkdirAll. cbn [length].
      by rewrite Hlen.
    + destruct IH as (e & done & d' & rest & -> & -> & Htr).
      exists e, (d :: done), d', rest. by rewrite mkdirs_of_MkdirAll, Htr.
Qed.


End CreateDirs.

Section CreateInMemory.

Context `{Externals}.

Lemma string_app_nil_r (s : string) : s +:+ "" = s.
Proof. induction s as [|a s IH]; [done|]. by rewrite string_app_cons, IH. Qed.

(** The chain of directories to a path ends with the path. *)
Lemma dir_chain_from_last (done rest : string) :
  exists pre, dir_chain_from done rest = pre ++ [done +:+ rest].
Proof.
  revert done. induction rest as [|a rest IH]; intros done.
  - exists []. by rewrite string_app_nil_r.
  - cbn [dir_chain_from]. destruct (Ascii.eqb_spec a "/") as [->|_].
    + destruct (IH (done +:+ "/")) as [pre ->]. eexists (_ :: pre).
      by rewrite string_app_assoc.
    + destruct (IH (done +:+ String a "")) as [pre ->]. exists pre.
      by rewrite string_app_assoc.
Qed.

Lemma dir_chain_last (path : string) : path ∈ dir_chain path.
Proof.
  destruct (dir_chain_from_last "" path) as [pre Hpre]. unfold dir_chain.
  rewrite Hpre. apply elem_of_app. right. apply list_elem_of_here.
Qed.

(** When the chain is made without error, each of its paths is a
    directory. *)
Lemma mkdir_chain_dirs (path : string) (chain : list string) (perm : FileMode)
    (nodes nodes' : gmap string node) (d : string) :
  mkdir_chain path chain perm nodes = (None, nodes') ->
  d ∈ chain ->
  exists p, nodes' !! d = Some (Directory p).
Proof.
  revert nodes. induction chain as [|c chain IH]; intros nodes Hrun Hd.
  - by apply elem_of_nil in Hd.
  - cbn [mkdir_chain] in Hrun.
    apply elem_of_cons in Hd as [->|Hd].
    + destruct (nodes !! c) as [[?|p]|] eqn:Hc; [done|..].
      * exists p. pose proof (mkdir_chain_keeps path chain perm nodes c _ Hc) as Hk.
        by rewrite Hrun in Hk.
      * exists perm.
        pose proof (mkdir_chain_keeps path chain perm (<[c := Directory perm]> nodes) c
                      (Directory perm) (lookup_insert_eq _ _ _)) as Hk.
        by rewrite Hrun in Hk.
    + destruct (nodes !! c) as [[?|p]|]; [done|by apply (IH nodes)|
        by apply (IH (<[c := Directory perm]> nodes))].
Qed.

(** [MkdirAll] without error: the path is a directory afterwards. *)
Lemma MkdirAll_makes (path : string) (perm : FileMode) (w w' : world) :
  do_MkdirAll path perm w = (None, w') ->
  exists p, w_nodes w' !! path = Some (Directory p).
Proof.
  unfold do_MkdirAll. destruct (fault w "mkdir" path); [done|].
  destruct (mkdir_chain path (dir_chain path) perm (w_nodes w)) as [err nodes'] eqn:Hc.
  intros [= -> <-]. cbn. apply (mkdir_chain_dirs _ _ _ _ _ _ Hc), dir_chain_last.
Qed.

Lemma create_dirs_memory (be : Pcloud.Pcloud) (ds : list string) (w : world) :
  match run os_handle (create_dirs be ds) w with
  | (Ok _, w', _) =>
      (forall d, d ∈ ds -> exists p, w_nodes w' !! d = Some (Directory p))
      /\ (forall p n, w_nodes w !! p = Some n -> w_nodes w' !! p = Some n)
  | (Err _, w', _) =>
      forall p n, w_nodes w !! p = Some n -> w_nodes w' !! p = Some n
  end.
Proof.
  revert w. induction ds as [|d ds IH]; intros w.
  - cbn. split; [|done]. intros d Hd. by apply elem_of_nil in Hd.
  - cbn [create_dirs bind call run os_handle]. fold (create_dirs be).
    pose proof (fun p n => MkdirAll_keeps d Modes_Dir w p n) as Hkeep.
    pose proof (MkdirAll_makes d Modes_Dir w) as Hmake.
    destruct (do_MkdirAll d Modes_Dir w) as [[e|] w1]; cbn [snd] in Hkeep; [by cbn|].
    specialize (IH w1).
    destruct (run os_handle (create_dirs be ds) w1) as [[[be'|err] w2] tr].
    + destruct IH as [Hds Hk]. split; [|by intros p n Hp; apply Hk, Hkeep].
      intros d' [->|Hd']%elem_of_cons; [|by apply Hds].
      destruct (Hmake w1 eq_refl) as [p Hp]. exists p. by apply Hk.
    + intros p n Hp. by apply IH, Hkeep.
Qed.

(** X7: on the in-memory file system, when [Create] returns a backend,
    every directory of the layout's [Paths] exists afterwards as a
    directory, every node that was there before is still there unchanged,
    and the backend holds the given configuration. *)
Theorem Create_directories_exist (cfg : Variant1.Config) (rt : RoundTripper)
    (w w' : world) (be : Pcloud.Pcloud) (tr : list called) :
  run os_handle (Pcloud.Create cfg rt) w = (Ok be, w', tr) ->
  Pcloud.Config be = cfg
  /\ (forall d, d ∈ Paths (Pcloud.Layout_ be) ->
                exists p, w_nodes w' !! d = Some (Directory p))
  /\ (forall p n, w_nodes w !! p = Some n -> w_nodes w' !! p = Some n).
Proof.
  rewrite Create_unfold. cbn [bind call run os_handle].
  destruct (do_ParseLayout _ _ _) as [l|e]; [|done]. cbn [bind call run os_handle].
  assert ((do_Stat "lstat" (Filename l config_handle) w).2 = w) as Hw.
  { unfold do_Stat. by repeat case_match. }
  destruct (do_Stat "lstat" (Filename l config_handle) w) as [[fi|e] w1]; [done|].
  cbn [snd] in Hw. subst w1.
  pose proof (create_dirs_memory {| Pcloud.Config := cfg; Pcloud.Layout_ := l |}
                (Paths l) w) as Hmem.
  pose proof (create_dirs_run world (@os_handle)
                {| Pcloud.Config := cfg; Pcloud.Layout_ := l |} (Paths l) w) as Hrun.
  destruct (run os_handle (create_dirs _ (Paths l)) w) as [[[be'|err] w2] tr2]; [|done].
  destruct Hrun as (-> & _ & _). destruct Hmem as [Hds Hk].
  intros [= <- <- _]. done.
Qed.

End CreateInMemory.

(* ===================================================================== *)
(** * Save and Load: errors and descriptors, in every environment *)
(* ===================================================================== *)

(** One step of a run against [handle]: the answer of the environment, by
    cases. *)
Ltac run_step handle :=
  first
    [ progress cbn [bind call run fst snd err_of Pcloud.IsNotExist errors_Cause
                    os_IsNotExist fmap option_fmap option_map]
    | match goal with
      | |- context [handle ?X ?e ?w] =>
          let x := fresh "x" in
          let w' := fresh "w" in
          destruct (handle X e w) as [x w']; try destruct x
      | |- context [if ?c then _ else _] => destruct c
      end ].

Section Descriptors.

Context `{Externals}.
Variable W : Type.
Variable handle : forall X : Type, osE X -> W -> X * W.

(** X8: in every environment, when the first open of [Save] fails, [Save]
    returns that error, wrapped as OpenFile: at once when the error is
    not a not-exist error, and also when it is one and [MkdirAll] of the
    directory fails (the error of [MkdirAll] is not reported). *)
Theorem Save_reports_first_open_error (b : Pcloud.Pcloud) (ctx : Context) (h : Handle)
    (rd : Reader) (w w1 : W) (e : error) :
  Valid h = None ->
  handle _ (fs_OpenFile (Filename (Pcloud.Layout_ b) h) save_flags Modes_File) w
  = (Err e, w1) ->
  (Pcloud.IsNotExist b (Some e) = false ->
   run handle (Pcloud.Save b ctx h rd) w
   = (Some (errors_Wrap e "OpenFile"), w1,
      [Called (fs_OpenFile (Filename (Pcloud.Layout_ b) h) save_flags Modes_File) (Err e)]))
  /\ (Pcloud.IsNotExist b (Some e) = true ->
      forall e' w2,
        handle _ (os_MkdirAll (filepath_Dir (Filename (Pcloud.Layout_ b) h)) Modes_Dir) w1
        = (Some e', w2) ->
        run handle (Pcloud.Save b ctx h rd) w
        = (Some (errors_Wrap e "OpenFile"), w2,
           [Called (fs_OpenFile (Filename (Pcloud.Layout_ b) h) save_flags Modes_File)
                   (Err e);
            Called (os_MkdirAll (filepath_Dir (Filename (Pcloud.Layout_ b) h)) Modes_Dir)
                   (Some e')])).
Proof.
  intros Hv Hopen. rewrite (Save_phases b ctx h rd Hv). unfold open_phase.
  cbn [bind call run]. rewrite Hopen. cbn [err_of]. split.
  - intros ->. done.
  - intros -> e' w2 Hmk. cbn [bind call run]. by rewrite Hmk.
Qed.

(** X9: in every environment and on every path through [Save], the
    descriptors that [Save] closes are the descriptors it opened: a file
    that was opened is closed exactly once before [Save] returns, also
    when the copy or the sync fails, and nothing is closed when no open
    succeeded. *)
Theorem Save_closes_what_it_opens (b : Pcloud.Pcloud) (ctx : Context) (h : Handle)
    (rd : Reader) (w : W) :
  closes (run handle (Pcloud.Save b ctx h rd) w).2
  = opens (run handle (Pcloud.Save b ctx h rd) w).2.
Proof.
  unfold Pcloud.Save. destruct (Valid h); [done|].
  repeat run_step handle; reflexivity.
Qed.

(** X10: in every environment, when [Load] returns a reader, it opened
    exactly the descriptor behind the reader and did not close it (the
    caller closes it); when [Load] returns an error, every descriptor it
    opened is closed again. *)
Theorem Load_keeps_or_closes (b : Pcloud.Pcloud) (ctx : Context) (h : Handle)
    (length offset : Z) (w : W) :
  match (run handle (Pcloud.Load b ctx h length offset) w).1.1 with
  | Ok rc =>
      opens (run handle (Pcloud.Load b ctx h length offset) w).2 = [rc_file rc]
      /\ closes (run handle (Pcloud.Load b ctx h length offset) w).2 = []
  | Err _ =>
      closes (run handle (Pcloud.Load b ctx h length offset) w).2
      = opens (run handle (Pcloud.Load b ctx h length offset) w).2
  end.
Proof.
  unfold Pcloud.Load. destruct (Valid h); [done|].
  destruct (offset <? 0); [done|].
  repeat run_step handle; done.
Qed.

(** X11: in every environment and for a valid handle, [Test] and [Stat]
    agree: [Test] answers true exactly when [Stat], run in the same
    state, returns no error; and [Test] never returns true together with
    an error. *)
Theorem Test_agrees_with_Stat (b : Pcloud.Pcloud) (ctx : Context) (h : Handle) (w : W) :
  Valid h = None ->
  ((run handle (Pcloud.Test b ctx h) w).1.1.1 = true
   <-> (run handle (Pcloud.Stat b ctx h) w).1.1.2 = None)
  /\ ((run handle (Pcloud.Test b ctx h) w).1.1.1 = true ->
      (run handle (Pcloud.Test b ctx h) w).1.1.2 = None).
Proof.
  intros Hv. rewrite Test_run, (Stat_run W handle b ctx h w Hv).
  destruct (handle _ (fs_Stat (Filename (Pcloud.Layout_ b) h)) w) as [[fi|e] w1];
    cbn [fst snd]; [done|].
  by destruct (os_IsNotExist (errors_Cause (Some e))).
Qed.

End Descriptors.

(* ===================================================================== *)
(** * Save, Load, Stat, Test and Remove on the in-memory file system *)
(* ===================================================================== *)

Section StoreAndRead.

Context `{Externals}.

Lemma write_at_start (bytes : list Byte.byte) : write_at 0 bytes [] = bytes.
Proof. unfold write_at. cbn. by rewrite drop_nil, app_nil_r. Qed.

(** [Save] where nothing is stored yet and the directory exists: the
    result is the error the reader ended with (wrapped as Write), or nil;
    in both cases the file holds the bytes the reader gave. *)
Lemma Save_run_fresh (b : Pcloud.Pcloud) (ctx : Context) (h : Handle) (rd : Reader)
    (w : world) (p : FileMode) :
  let f := Filename (Pcloud.Layout_ b) h in
  Valid h = None ->
  w_fault w !! f = None ->
  w_nodes w !! f = None ->
  w_nodes w !! parent_dir f = Some (Directory p) ->
  (run os_handle (Pcloud.Save b ctx h rd) w).1.1
  = (fun e => errors_Wrap e "Write") <$> rd_err rd
  /\ w_nodes (run os_handle (Pcloud.Save b ctx h rd) w).1.2
     = <[f := RegularFile Modes_File (rd_bytes rd)]> (w_nodes w)
  /\ w_fault (run os_handle (Pcloud.Save b ctx h rd) w).1.2 = w_fault w.
Proof.
  intros f Hv Hf Hn Hp. rewrite (Save_phases b ctx h rd Hv). fold f.
  unfold open_phase. cbn [bind call run os_handle].
  unfold do_OpenFile, fault. rewrite Hf, Hn, Hp.
  change (has_flag save_flags O_CREATE) with true.
  cbn [fmap option_fmap option_map open_new]. cbn [err_of Pcloud.IsNotExist errors_Cause
    os_IsNotExist fmap option_fmap option_map bind run write_phase call].
  cbn [os_handle]. unfold do_Copy. cbn [w_open w_nodes set_open set_nodes].
  rewrite lookup_insert_eq. cbn [of_name of_offset]. rewrite lookup_insert_eq.
  change (Z.to_nat 0) with O. rewrite write_at_start, insert_insert_eq.
  destruct (rd_err rd) as [e|].
  - cbn [bind call run os_handle]. unfold do_Close.
    cbn [w_open w_nodes w_fault set_open set_nodes]. rewrite lookup_insert_eq.
    cbn [w_open w_nodes w_fault set_open set_nodes fst snd fmap option_fmap option_map bind
         run]. done.
  - cbn [bind call run os_handle]. unfold do_Sync.
    cbn [w_open w_nodes w_fault set_open set_nodes]. rewrite lookup_insert_eq.
    cbn [bind call run os_handle]. unfold do_Close.
    cbn [w_open w_nodes w_fault set_open set_nodes]. rewrite lookup_insert_eq.
    cbn [bind call run os_handle]. unfold do_Chmod, fault.
    cbn [w_open w_nodes w_fault set_open set_nodes]. rewrite Hf, lookup_insert_eq.
    cbn [fmap option_fmap option_map chmod_node w_open w_nodes w_fault set_open set_nodes
         fst snd]. by rewrite insert_insert_eq.
Qed.

(** [Load] of a whole stored object. *)
Lemma Load_whole_stored (b : Pcloud.Pcloud) (ctx : Context) (h : Handle) (w : world)
    (perm : FileMode) (data : list Byte.byte) :
  Valid h = None ->
  w_fault w !! Filename (Pcloud.Layout_ b) h = None ->
  w_nodes w !! Filename (Pcloud.Layout_ b) h = Some (RegularFile perm data) ->
  exists rc w' tr,
    run os_handle (Pcloud.Load b ctx h 0 0) w = (Ok rc, w', tr)
    /\ ReadAll w' rc = Ok data.
Proof.
  intros Hv Hf Hn. unfold Pcloud.Load. rewrite Hv.
  change (0 <? 0) with false. cbn [bind call run].
  rewrite (handle_Open_stored w _ perm data Hf Hn). unfold open_new.
  cbn [bind run]. eexists _, _, _. split; [reflexivity|].
  unfold ReadAll. cbn [w_open w_nodes set_open]. rewrite lookup_insert_eq.
  cbn [of_name of_offset]. by rewrite Hn.
Qed.

(** [Save] on a filename that holds something fails. *)
Lemma Save_on_stored_fails (b : Pcloud.Pcloud) (ctx : Context) (h : Handle) (rd : Reader)
    (w : world) (n : node) :
  Valid h = None ->
  w_nodes w !! Filename (Pcloud.Layout_ b) h = Some n ->
  exists err, (run os_handle (Pcloud.Save b ctx h rd) w).1.1 = Some err.
Proof.
  intros Hv Hn. rewrite (Save_phases b ctx h rd Hv), run_bind.
  pose proof (open_phase_run b (Filename (Pcloud.Layout_ b) h) w) as Hopen.
  destruct (run os_handle (open_phase b _) w) as [[[fd|e] w1] t1].
  - destruct Hopen as (_ & Hnew & _). by rewrite Hnew in Hn.
  - cbn. by eexists.
Qed.

(** X12: the round trip of [Save].  On the in-memory file system, for a
    valid handle whose filename holds nothing, in a directory that exists,
    and a reader that ends without error: [Save] returns nil, and in the
    state it leaves [Test] answers true, [Stat] reports the number of
    bytes saved and the name of the handle, and [Load] of the whole
    object gives a reader that yields exactly the bytes saved. *)
Theorem Save_then_read_back (b : Pcloud.Pcloud) (ctx : Context) (h : Handle) (rd : Reader)
    (w : world) (p : FileMode) :
  let f := Filename (Pcloud.Layout_ b) h in
  let w' := (run os_handle (Pcloud.Save b ctx h rd) w).1.2 in
  Valid h = None ->
  w_fault w !! f = None ->
  w_nodes w !! f = None ->
  w_nodes w !! parent_dir f = Some (Directory p) ->
  rd_err rd = None ->
  (run os_handle (Pcloud.Save b ctx h rd) w).1.1 = None
  /\ (run os_handle (Pcloud.Test b ctx h) w').1.1 = (true, None)
  /\ (run os_handle (Pcloud.Stat b ctx h) w').1.1
     = ({| Size := Z.of_nat (length (rd_bytes rd)); FileInfo_Name := Handle_Name h |}, None)
  /\ exists rc w'' tr,
       run os_handle (Pcloud.Load b ctx h 0 0) w' = (Ok rc, w'', tr)
       /\ ReadAll w'' rc = Ok (rd_bytes rd).
Proof.
  intros f w' Hv Hf Hn Hp Hrd.
  destruct (Save_run_fresh b ctx h rd w p Hv Hf Hn Hp) as (Hres & Hnodes & Hfault).
  fold f w' in Hres, Hnodes, Hfault. rewrite Hrd in Hres.
  assert (w_nodes w' !! f = Some (RegularFile Modes_File (rd_bytes rd))) as Hn'
    by (rewrite Hnodes; apply lookup_insert_eq).
  assert (w_fault w' !! f = None) as Hf' by by rewrite Hfault.
  split; [exact Hres|]. split; [|split].
  - rewrite Test_run. fold f. cbn [os_handle]. unfold do_Stat, fault.
    by rewrite Hf', Hn'.
  - rewrite Stat_run by done. fold f. cbn [os_handle]. unfold do_Stat, fault.
    by rewrite Hf', Hn'.
  - by apply (Load_whole_stored b ctx h w' Modes_File).
Qed.

(** X13: a [Save] whose reader fails leaves an object behind.  On the
    in-memory file system, for a valid handle whose filename holds
    nothing, in a directory that exists, and a reader that ends with an
    error: [Save] returns that error wrapped as Write, the file is not
    removed and holds the bytes read so far, and every later [Save] to the
    same handle fails, whatever its reader. *)
Theorem Save_failed_copy_leaves_object (b : Pcloud.Pcloud) (ctx : Context) (h : Handle)
    (rd : Reader) (w : world) (p : FileMode) (e : error) :
  let f := Filename (Pcloud.Layout_ b) h in
  let w' := (run os_handle (Pcloud.Save b ctx h rd) w).1.2 in
  Valid h = None ->
  w_fault w !! f = None ->
  w_nodes w !! f = None ->
  w_nodes w !! parent_dir f = Some (Directory p) ->
  rd_err rd = Some e ->
  (run os_handle (Pcloud.Save b ctx h rd) w).1.1 = Some (errors_Wrap e "Write")
  /\ w_nodes w' !! f = Some (RegularFile Modes_File (rd_bytes rd))
  /\ forall ctx2 rd2, exists err,
       (run os_handle (Pcloud.Save b ctx2 h rd2) w').1.1 = Some err.
Proof.
  intros f w' Hv Hf Hn Hp Hrd.
  destruct (Save_run_fresh b ctx h rd w p Hv Hf Hn Hp) as (Hres & Hnodes & _).
  fold f w' in Hres, Hnodes. rewrite Hrd in Hres.
  assert (w_nodes w' !! f = Some (RegularFile Modes_File (rd_bytes rd))) as Hn'
    by (rewrite Hnodes; apply lookup_insert_eq).
  split; [exact Hres|]. split; [exact Hn'|].
  intros ctx2 rd2. by apply (Save_on_stored_fails b ctx2 h rd2 w' _ Hv Hn').
Qed.



End StoreAndRead.

(* ===================================================================== *)
(** * List: the subdirs flag, and what is visited *)
(* ===================================================================== *)

Lemma same_prog_refl {R : Type} (p : prog R) : same_prog p p.
Proof. induction p as [r|X e k IH]; by constructor. Qed.

Lemma same_prog_bind {A B : Type} (p p' : prog A) (k k' : A -> prog B) :
  same_prog p p' -> (forall a, same_prog (k a) (k' a)) ->
  same_prog (bind p k) (bind p' k').
Proof.
  intros Hp Hk. induction Hp as [a|X e c c' _ IH]; cbn [bind]; [apply Hk|].
  by constructor.
Qed.

Lemma same_prog_run {R : Type} (W : Type) (handle : forall X : Type, osE X -> W -> X * W)
    (p p' : prog R) (w : W) :
  same_prog p p' -> run handle p w = run handle p' w.
Proof.
  intros Hp. revert w. induction Hp as [r|X e k k' _ IH]; intros w; [done|].
  cbn [run]. destruct (handle X e w) as [x w1]. by rewrite IH.
Qed.

(** Walks with functions that are the same on every entry are the same. *)
Lemma walk_same (f g : WalkFunc) (t : wtree) :
  (forall path a, same_prog (f path a) (g path a)) ->
  forall path, same_prog (walk path t f) (walk path t g).
Proof.
  intros Hfg. induction t as [err|info rderr cs IH] using wtree_induction; intros path.
  - apply Hfg.
  - rewrite !walk_WNode. destruct (negb (fi_IsDir info)); [apply Hfg|].
    apply same_prog_bind; [apply Hfg|]. intros err1.
    destruct (bool_decide _); [apply same_prog_refl|].
    induction IH as [|[filename c] cs Hc _ IHcs]; [apply same_prog_refl|].
    cbn [walk_children]. fold (walk_children f) (walk_children g).
    destruct c as [err|fileInfo rderr' gcs].
    + apply same_prog_bind; [apply Hfg|]. intros [e|]; [|apply IHcs].
      destruct (is_SkipDir e); [apply IHcs|apply same_prog_refl].
    + apply same_prog_bind; [apply (Hc filename)|]. intros [e|]; [|apply IHcs].
      destruct (negb (fi_IsDir fileInfo) || negb (is_SkipDir e));
        [apply same_prog_refl|apply IHcs].
Qed.

Section ListVisits.

Context `{Externals}.

(** The function of [List] does not look at the flag for directories: a
    directory is not a file for [isFile], and the function has returned
    before the flag is read. *)
Lemma list_callback_flag (ctx : Context) (basedir : string)
    (fn : FileInfo -> prog (option error)) (path : string) (a : walk_arg) :
  list_callback ctx basedir true fn path a = list_callback ctx basedir false fn path a.
Proof.
  unfold list_callback. destruct a as [fi|fi err]; [|done].
  destruct (decide (path = basedir)); [done|].
  destruct (Pcloud.isFile fi) eqn:Hfile; [|done].
  by rewrite (isFile_not_dir fi Hfile).
Qed.

(** X16: the second result of [Basedir] (whether to go into
    subdirectories) has no effect on [List]: for two backends whose
    layouts give the same base directory for a file type, [List] makes the
    same calls and returns the same result in every environment, whatever
    the two flags are.  (The walk goes into every subdirectory.) *)
Theorem List_ignores_subdirs_flag (W : Type)
    (handle : forall X : Type, osE X -> W -> X * W)
    (b1 b2 : Pcloud.Pcloud) (ctx : Context) (t : FileType)
    (fn : FileInfo -> prog (option error)) (w : W) :
  (Basedir (Pcloud.Layout_ b1) t).1 = (Basedir (Pcloud.Layout_ b2) t).1 ->
  run handle (Pcloud.List b1 ctx t fn) w = run handle (Pcloud.List b2 ctx t fn) w.
Proof.
  intros Hdir. rewrite !List_unfold, <- Hdir. apply same_prog_run.
  unfold fs_Walk. apply same_prog_bind; [apply same_prog_refl|]. intros tree.
  apply same_prog_bind; [|intros r; apply same_prog_refl].
  apply walk_same. intros path a.
  destruct (Basedir (Pcloud.Layout_ b1) t).2, (Basedir (Pcloud.Layout_ b2) t).2;
    rewrite ?list_callback_flag; apply same_prog_refl.
Qed.

Variable W : Type.
Variable handle : forall X : Type, osE X -> W -> X * W.

Lemma walk_flat_entry (ctx : Context) (basedir : string) (subdirs : bool)
    (p : string) (fi : os_FileInfo) :
  p <> basedir ->
  walk p (WNode fi None []) (list_callback ctx basedir subdirs visitor)
  = if Pcloud.isFile fi then check_visit ctx visitor (listed_info (p, fi)) else Ret None.
Proof.
  intros Hp. rewrite walk_WNode. unfold list_callback. cbn [walk_arg_of].
  rewrite decide_False by done.
  destruct (Pcloud.isFile fi) eqn:Hfile; cbn [negb].
  - rewrite (isFile_not_dir fi Hfile). done.
  - destruct (fi_IsDir fi); cbn [negb bind]; [|done].
    by rewrite bool_decide_eq_false_2 by (intros [?|?]; congruence).
Qed.

Lemma walk_flat_children (ctx : Context) (basedir : string) (subdirs : bool)
    (entries : list (string * os_FileInfo)) (w : W) :
  Forall (fun en => en.1 <> basedir) entries ->
  Forall (fun c => c = None)
         (ctx_checks (run handle (walk_children (list_callback ctx basedir subdirs visitor)
                                                (flat_children entries)) w).2) ->
  Forall (fun v => v.2 = None)
         (visits (run handle (walk_children (list_callback ctx basedir subdirs visitor)
                                            (flat_children entries)) w).2) ->
  visits (run handle (walk_children (list_callback ctx basedir subdirs visitor)
                                    (flat_children entries)) w).2
  = listed_visits entries
  /\ (run handle (walk_children (list_callback ctx basedir subdirs visitor)
                                (flat_children entries)) w).1.1 = None.
Proof.
  intros Hflat. revert w.
  induction Hflat as [|[p fi] entries Hp _ IH]; intros w; [done|].
  cbn [fst snd] in Hp.
  unfold flat_children. cbn [fmap list_fmap walk_children fst snd].
  fold (walk_children (list_callback ctx basedir subdirs visitor)).
  fold (flat_children entries).
  rewrite (walk_flat_entry ctx basedir subdirs p fi Hp), run_bind.
  unfold listed_visits. rewrite filter_cons. cbn [snd].
  destruct (Pcloud.isFile fi) eqn:Hfile.
  - rewrite check_visit_run.
    destruct (handle _ (ctx_Err ctx) w) as [[ce|] w1].
    { destruct (handle _ (ctx_Err ctx) w1) as [c' w2].
      destruct (run handle _ w2) as [[r' w'] tr']. cbn.
      intros Hc. by apply Forall_cons in Hc as [? _]. }
    destruct (handle _ (visit (listed_info (p, fi))) w1) as [[e|] w2].
    { destruct (run handle _ w2) as [[r' w'] tr']. cbn.
      intros _ Hv. by apply Forall_cons in Hv as [? _]. }
    destruct (handle _ (ctx_Err ctx) w2) as [[ce|] w3].
    { destruct (run handle _ w3) as [[r' w'] tr']. cbn.
      intros Hc. apply Forall_cons in Hc as [_ Hc].
      by apply Forall_cons in Hc as [? _]. }
    cbn [fmap option_fmap option_map]. specialize (IH w3).
    destruct (run handle (walk_children _ (flat_children entries)) w3) as [[r w4] tr].
    cbn [fst snd] in *. rewrite decide_True by done.
    rewrite ctx_checks_app, visits_app. cbn [fmap list_fmap].
    intros Hc Hv. apply Forall_app in Hc as [_ Hc]. apply Forall_app in Hv as [_ Hv].
    destruct (IH Hc Hv) as [-> ->]. done.
  - rewrite decide_False by done. cbn [run]. specialize (IH w).
    destruct (run handle (walk_children _ (flat_children entries)) w) as [[r w4] tr].
    cbn [fst snd app] in *. exact IH.
Qed.

(** X17: [List] over a base directory that is read without error and whose
    sub-directories are all empty, in every environment.  Provided that
    every check of the context finds it live and every visit returns nil,
    [List] visits exactly the entries that are regular files, each once
    and in the order of the directory, reports for each the last element
    of its path as name and its size, visits neither the base directory
    itself nor an entry that is not a regular file, and returns nil. *)
Theorem List_visits_regular_files (b : Pcloud.Pcloud) (ctx : Context) (t : FileType)
    (w : W) (info : os_FileInfo) (entries : list (string * os_FileInfo)) :
  (handle _ (walk_read (Basedir (Pcloud.Layout_ b) t).1) w).1
  = WNode info None (flat_children entries) ->
  fi_IsDir info = true ->
  Forall (fun en => en.1 <> (Basedir (Pcloud.Layout_ b) t).1) entries ->
  Forall (fun c => c = None)
         (ctx_checks (run handle (Pcloud.List b ctx t visitor) w).2) ->
  Forall (fun v => v.2 = None) (visits (run handle (Pcloud.List b ctx t visitor) w).2) ->
  visits (run handle (Pcloud.List b ctx t visitor) w).2 = listed_visits entries
  /\ (run handle (Pcloud.List b ctx t visitor) w).1.1 = None.
Proof.
  intros Htree Hinfo Hflat. rewrite List_unfold.
  set (basedir := (Basedir (Pcloud.Layout_ b) t).1) in *.
  set (subdirs := (Basedir (Pcloud.Layout_ b) t).2).
  unfold fs_Walk. cbn [bind call run].
  destruct (handle _ (walk_read basedir) w) as [tree w1]. cbn [fst] in Htree. subst tree.
  rewrite run_bind, walk_WNode, Hinfo. cbn [negb]. rewrite run_bind.
  replace (list_callback ctx basedir subdirs visitor basedir (walk_arg_of info None))
    with (@Ret (option error) None)
    by (unfold list_callback; cbn [walk_arg_of]; by rewrite decide_True).
  cbn [run]. rewrite bool_decide_eq_false_2 by (intros [?|?]; congruence).
  pose proof (walk_flat_children ctx basedir subdirs entries w1 Hflat) as Hch.
  destruct (run handle (walk_children _ (flat_children entries)) w1) as [[r w2] tr].
  cbn [fst snd app] in *. intros Hc Hv.
  assert (Forall (fun c => c = None) (ctx_checks tr)
          /\ Forall (fun v => v.2 = None) (visits tr)) as [Hc' Hv'].
  { destruct r as [[]|]; cbn [run fst snd] in Hc, Hv;
      rewrite ?app_nil_r in Hc, Hv; by split. }
  destruct (Hch Hc' Hv') as [Hvis ->]. cbn [run fst snd]. by rewrite app_nil_r.
Qed.

End ListVisits.

(* ===================================================================== *)
(** * Open and Create *)
(* ===================================================================== *)

Section OpenCreate.

Context `{Externals}.
Variable W : Type.
Variable handle : forall X : Type, osE X -> W -> X * W.

(** X18: [Open] and [Create] in every environment, run in the same state.
    [Open] asks for no directory and only parses the layout.  When [Open]
    fails, [Create] fails in the same way: same error, same calls, same
    state afterwards, so that nothing is created.  When [Open] returns a
    backend and [Create] returns one too, it is the same backend. *)
Theorem Create_agrees_with_Open (cfg : Variant1.Config) (rt : RoundTripper) (w : W) :
  mkdirs_of (run handle (Pcloud.Open cfg rt) w).2 = []
  /\ length (run handle (Pcloud.Open cfg rt) w).2 = 1%nat
  /\ match (run handle (Pcloud.Open cfg rt) w).1.1 with
     | Err _ => run handle (Pcloud.Create cfg rt) w = run handle (Pcloud.Open cfg rt) w
     | Ok be =>
         forall be', (run handle (Pcloud.Create cfg rt) w).1.1 = Ok be' -> be' = be
     end.
Proof.
  rewrite Create_unfold. unfold Pcloud.Open. cbn [bind call run].
  destruct (handle _ (backend_ParseLayout (Variant1.Layout cfg) Pcloud.defaultLayout
                        (Variant1.Path cfg)) w) as [[l|e] w1]; cbn [run fst snd];
    [|done].
  split; [done|]. split; [done|]. intros be'. cbn [bind call run].
  destruct (handle _ (fs_Lstat (Filename l config_handle)) w1) as [[st|e0] w2];
    cbn [run fst snd]; [done|].
  pose proof (create_dirs_run W handle {| Pcloud.Config := cfg; Pcloud.Layout_ := l |}
                (Paths l) w2) as Hrun.
  destruct (run handle (create_dirs _ (Paths l)) w2) as [[[be''|err] w3] tr];
    cbn [fst snd]; [|done].
  destruct Hrun as [-> _]. by intros [= <-].
Qed.

End OpenCreate.

(* ===================================================================== *)
(** * The further properties on the example inputs *)
(* ===================================================================== *)

Section Examples2.

Existing Instance example_externals.
Import Example Example2.


Lemma Create_directories_exist_witness :
  (run os_handle (Pcloud.Create cfg tt) w_bare).1.1 = Ok be
  /\ Pcloud.Config be = cfg
  /\ (forall d, d ∈ Paths (Pcloud.Layout_ be) ->
        exists p, w_nodes (run os_handle (Pcloud.Create cfg tt) w_bare).1.2 !! d
                  = Some (Directory p))
  /\ (forall p n, w_nodes w_bare !! p = Some n ->
        w_nodes (run os_handle (Pcloud.Create cfg tt) w_bare).1.2 !! p = Some n).
Proof.
  split; [vm_compute; reflexivity|].
  apply (Create_directories_exist cfg tt w_bare
           (run os_handle (Pcloud.Create cfg tt) w_bare).1.2 be
           (run os_handle (Pcloud.Create cfg tt) w_bare).2).
  vm_compute; reflexivity.
Defined.

(** [Save] where the path of the repository is a file: the open fails with
    a not-exist error, [MkdirAll] fails, and the error of the open is
    returned. *)
Lemma Save_reports_first_open_error_witness :
  Valid h_blob = None
  /\ (run os_handle (Pcloud.Save be ctx_live h_blob rd) w_blocked).1.1
     = Some (errors_Wrap (PathError "open" "/repo/data/abc" ENOENT) "OpenFile")
  /\ mkdirs_of (run os_handle (Pcloud.Save be ctx_live h_blob rd) w_blocked).2
     = ["/repo/data"].
Proof.
  assert (Valid h_blob = None) as Hv by reflexivity.
  split; [exact Hv|].
  destruct (Save_reports_first_open_error world (@os_handle) be ctx_live h_blob rd
              w_blocked w_blocked (PathError "open" "/repo/data/abc" ENOENT) Hv
              ltac:(vm_compute; reflexivity)) as [_ H].
  rewrite (H ltac:(vm_compute; reflexivity)
             (PathError "mkdir" "/repo/data" ENOTDIR) w_blocked
             ltac:(vm_compute; reflexivity)).
  split; vm_compute; reflexivity.
Defined.

(** [Test] and [Stat] on a stored object. *)
Lemma Test_agrees_with_Stat_witness :
  Valid h_blob = None
  /\ (run os_handle (Pcloud.Stat be ctx_live h_blob) w_stored).1.1.2 = None
  /\ (run os_handle (Pcloud.Test be ctx_live h_blob) w_stored).1.1.2 = None.
Proof.
  assert (Valid h_blob = None) as Hv by reflexivity.
  assert ((run os_handle (Pcloud.Test be ctx_live h_blob) w_stored).1.1.1 = true) as Ht
    by (vm_compute; reflexivity).
  destruct (Test_agrees_with_Stat world (@os_handle) be ctx_live h_blob w_stored Hv)
    as [Hiff Herr].
  split; [exact Hv|]. split; [by apply Hiff|by apply Herr].
Defined.

(** [Save] of three bytes into the empty repository, and what is read
    back. *)
Lemma Save_then_read_back_witness :
  Valid h_blob = None
  /\ w_nodes w_fresh !! "/repo/data/abc" = None
  /\ (run os_handle (Pcloud.Save be ctx_live h_blob rd) w_fresh).1.1 = None
  /\ (run os_handle (Pcloud.Stat be ctx_live h_blob)
         (run os_handle (Pcloud.Save be ctx_live h_blob rd) w_fresh).1.2).1.1
     = ({| Size := 3; FileInfo_Name := "abc" |}, None)
  /\ exists rc w'' tr,
       run os_handle (Pcloud.Load be ctx_live h_blob 0 0)
           (run os_handle (Pcloud.Save be ctx_live h_blob rd) w_fresh).1.2
       = (Ok rc, w'', tr)
       /\ ReadAll w'' rc = Ok hi.
Proof.
  assert (Valid h_blob = None) as Hv by reflexivity.
  assert (w_nodes w_fresh !! "/repo/data/abc" = None) as Hn by (vm_compute; reflexivity).
  split; [exact Hv|]. split; [exact Hn|].
  destruct (Save_then_read_back be ctx_live h_blob rd w_fresh 448 Hv
              ltac:(vm_compute; reflexivity) Hn ltac:(vm_compute; reflexivity) eq_refl)
    as (HSave & _ & HStat & HLoad).
  split; [exact HSave|]. split; [exact HStat|exact HLoad].
Defined.

(** [Save] from a reader that fails after three bytes. *)
Lemma Save_failed_copy_leaves_object_witness :
  rd_err rd_broken = Some (errors_New "unexpected EOF")
  /\ (run os_handle (Pcloud.Save be ctx_live h_blob rd_broken) w_fresh).1.1
     = Some (errors_Wrap (errors_New "unexpected EOF") "Write")
  /\ w_nodes (run os_handle (Pcloud.Save be ctx_live h_blob rd_broken) w_fresh).1.2
       !! "/repo/data/abc" = Some (RegularFile 384 hi)
  /\ exists err,
       (run os_handle (Pcloud.Save be ctx_live h_blob rd)
            (run os_handle (Pcloud.Save be ctx_live h_blob rd_broken) w_fresh).1.2).1.1
       = Some err.
Proof.
  split; [reflexivity|].
  destruct (Save_failed_copy_leaves_object be ctx_live h_blob rd_broken w_fresh 448
              (errors_New "unexpected EOF") eq_refl
              ltac:(vm_compute; reflexivity) ltac:(vm_compute; reflexivity)
              ltac:(vm_compute; reflexivity) eq_refl)
    as (HSave & Hnode & Hlater).
  split; [exact HSave|]. split; [exact Hnode|exact (Hlater ctx_live rd)].
Defined.



(** Two backends whose layouts differ in the flag only. *)
Lemma List_ignores_subdirs_flag_witness :
  (Basedir (Pcloud.Layout_ be) DataFile).2 = false
  /\ (Basedir (Pcloud.Layout_ be_subdirs) DataFile).2 = true
  /\ run os_handle (Pcloud.List be ctx_live DataFile visitor) w_nested
     = run os_handle (Pcloud.List be_subdirs ctx_live DataFile visitor) w_nested.
Proof.
  split; [reflexivity|]. split; [reflexivity|].
  apply (List_ignores_subdirs_flag world (@os_handle) be be_subdirs ctx_live DataFile
           visitor w_nested).
  reflexivity.
Defined.

(** [List] over a directory with two files and an empty directory. *)
Lemma List_visits_regular_files_witness :
  visits (run os_handle (Pcloud.List be ctx_live DataFile visitor) w_mixed).2
  = [({| Size := 3; FileInfo_Name := "abc" |}, None);
     ({| Size := 0; FileInfo_Name := "xyz" |}, None)]
  /\ (run os_handle (Pcloud.List be ctx_live DataFile visitor) w_mixed).1.1 = None.
Proof.
  destruct (List_visits_regular_files world (@os_handle) be ctx_live DataFile w_mixed
              (info_of (Directory 448))
              [("/repo/data/abc", info_of (RegularFile 384 hi));
               ("/repo/data/empty", info_of (Directory 448));
               ("/repo/data/xyz", info_of (RegularFile 384 []))]
              ltac:(vm_compute; reflexivity) ltac:(vm_compute; reflexivity)
              ltac:(vm_compute; repeat (apply Forall_cons_2 || apply Forall_nil_2);
                    discriminate)
              ltac:(vm_compute; repeat constructor)
              ltac:(vm_compute; repeat constructor))
    as [Hvisits Hres].
  split; [|exact Hres]. rewrite Hvisits. vm_compute; reflexivity.
Defined.

End Examples2.
